(** * Vegavath Ignition: the asynchronous submission pipeline of [app.py]

    A shallow embedding of the Flask application [app.py]: the GitHub
    upsert helper [github_upload], the background worker [process_upload],
    the routes [verify], [upload], [events] and [reset_team], and the
    module-level dictionaries [upload_state], [upload_queues] and
    [upload_meta] they share.

    Python statements are written in a state-and-exception monad over a
    [World] record that holds the module globals, the working directory,
    the queue objects and the remote store.  An exception keeps the side
    effects made before it was raised, as in Python. *)

From Stdlib.Strings Require Import Byte Ascii String.
From stdpp Require Import gmap strings list fin_maps pretty.

Set Warnings "-register-all".

(** ** Values *)

(** File contents ([bytes]). *)
Abbreviation bytes := (list byte).

(** A path is the list of its components, from the working directory
    down; the components are names as a directory lists them.
    [os.path.join root name] appends one component. *)
Abbreviation path := (list string).

(** Values that [json.loads] produces and [json.dumps] consumes.  A
    [JObj] lists the items of a [dict] in insertion order. *)
Inductive json : Type :=
| JNull
| JBool (b : bool)
| JNum (n : Z)
| JStr (s : string)
| JArr (items : list json)
| JObj (items : list (string * json)).

(** Python truthiness, as tested by [if sha:]. *)
Definition truthy (v : json) : bool :=
  match v with
  | JNull => false
  | JBool b => b
  | JNum n => negb (n =? 0)%Z
  | JStr s => negb (String.eqb s "")
  | JArr items => negb (bool_decide (items = []))
  | JObj items => negb (bool_decide (items = []))
  end.

(** The exceptions that the modelled statements can raise. *)
Inductive exn : Type :=
| KeyError (key : string)
| TypeError
| JSONDecodeError
| ConnectionError
| OSError (p : path)
| BadZipFile.

Fixpoint assoc {A : Type} (k : string) (items : list (string * A)) : option A :=
  match items with
  | [] => None
  | (k', v) :: rest => if String.eqb k k' then Some v else assoc k rest
  end.

(** [v[key]] for a value obtained from [json()]. *)
Definition subscript (v : json) (key : string) : exn + json :=
  match v with
  | JObj items =>
      match assoc key items with
      | Some x => inr x
      | None => inl (KeyError key)
      end
  | _ => inl TypeError
  end.

(** ** HTTP *)

(** A [requests.Response]: [json_body] is what [.json()] returns, [None]
    when the body does not parse. *)
Record response : Type := mkResponse {
  status_code : Z;
  text : string;
  json_body : option json
}.

(** What goes out on the wire. *)
Inductive request : Type :=
| HttpGet (url : string) (headers : gmap string string)
| HttpPut (url : string) (payload : gmap string json) (headers : gmap string string).

(** ** The working directory *)

(** A directory lists its entries in the order [os.scandir] reports them;
    Python documents that order as arbitrary. *)
Inductive node : Type :=
| File (data : bytes)
| Dir (entries : list (string * node)).

Fixpoint fs_lookup (n : node) (p : path) : option node :=
  match p with
  | [] => Some n
  | c :: p' =>
      match n with
      | Dir entries =>
          match assoc c entries with
          | Some child => fs_lookup child p'
          | None => None
          end
      | File _ => None
      end
  end.

Definition is_file (n : node) : bool :=
  match n with File _ => true | Dir _ => false end.

(** The names of the non-directory entries, in listing order. *)
Definition file_names (entries : list (string * node)) : list string :=
  map fst (filter (λ e, is_file e.2 = true) entries).

(** [entries[c] = n]: an existing name keeps its place, a new one is
    listed last.  This is one of the orders in which a system may list a
    directory; no statement below depends on it but the examples that
    compute a listing. *)
Fixpoint set_entry (c : string) (n : node) (entries : list (string * node))
    : list (string * node) :=
  match entries with
  | [] => [(c, n)]
  | (c', n') :: rest =>
      if String.eqb c c' then (c, n) :: rest else (c', n') :: set_entry c n rest
  end.

Definition del_entry (c : string) (entries : list (string * node))
    : list (string * node) :=
  filter (λ e, e.1 ≠ c) entries.

(** A chain of new, empty directories. *)
Fixpoint mkchain (p : path) : node :=
  match p with
  | [] => Dir []
  | c :: p' => Dir [(c, mkchain p')]
  end.

(** [os.makedirs(p, exist_ok=True)]; [None] when a component is a file. *)
Fixpoint makedirs (n : node) (p : path) : option node :=
  match p with
  | [] => match n with Dir _ => Some n | File _ => None end
  | c :: p' =>
      match n with
      | Dir entries =>
          match assoc c entries with
          | Some child =>
              match makedirs child p' with
              | Some child' => Some (Dir (set_entry c child' entries))
              | None => None
              end
          | None => Some (Dir (set_entry c (mkchain p') entries))
          end
      | File _ => None
      end
  end.

(** [open(p, "wb").write(data)]; [None] when the parent is not a
    directory or [p] is one. *)
Fixpoint write_file (n : node) (p : path) (data : bytes) : option node :=
  match p with
  | [] => None
  | c :: p' =>
      match n with
      | Dir entries =>
          match p' with
          | [] =>
              match assoc c entries with
              | Some (Dir _) => None
              | _ => Some (Dir (set_entry c (File data) entries))
              end
          | _ =>
              match assoc c entries with
              | Some child =>
                  match write_file child p' data with
                  | Some child' => Some (Dir (set_entry c child' entries))
                  | None => None
                  end
              | None => None
              end
          end
      | File _ => None
      end
  end.

(** [os.remove(p)]; [None] when [p] is not an existing file. *)
Fixpoint remove_file (n : node) (p : path) : option node :=
  match p with
  | [] => None
  | c :: p' =>
      match n with
      | Dir entries =>
          match assoc c entries with
          | Some child =>
              match p' with
              | [] =>
                  match child with
                  | File _ => Some (Dir (del_entry c entries))
                  | Dir _ => None
                  end
              | _ =>
                  match remove_file child p' with
                  | Some child' => Some (Dir (set_entry c child' entries))
                  | None => None
                  end
              end
          | None => None
          end
      | File _ => None
      end
  end.

(** Puts [new] at an existing path [p], or takes the entry away when
    [new] is [None]; a path that does not resolve changes nothing. *)
Fixpoint fs_update (n : node) (p : path) (new : option node) : node :=
  match p with
  | [] => match new with Some n' => n' | None => n end
  | c :: p' =>
      match n with
      | Dir entries =>
          match assoc c entries with
          | Some child =>
              match p', new with
              | [], None => Dir (del_entry c entries)
              | _, _ => Dir (set_entry c (fs_update child p' new) entries)
              end
          | None => n
          end
      | File _ => n
      end
  end.

(** The files that [os.walk] reaches below a directory, top-down: first
    the files of the directory itself, then each sub-directory in turn,
    all in listing order. *)
Fixpoint walk (root : path) (n : node) : list path :=
  match n with
  | File _ => []
  | Dir entries =>
      map (λ name, root ++ [name]) (file_names entries) ++
      (fix subdirs (es : list (string * node)) : list path :=
         match es with
         | [] => []
         | (name, child) :: es' =>
             match child with
             | Dir _ => walk (root ++ [name]) child
             | File _ => []
             end ++ subdirs es'
         end) entries
  end.

(** The list that the two nested [for] loops over [os.walk(top)] build;
    nothing is yielded when [top] is not a directory. *)
Definition os_walk_files (cwd : node) (top : path) : list path :=
  match fs_lookup cwd top with
  | Some (Dir entries) => walk top (Dir entries)
  | _ => []
  end.

(** *** Paths as text *)

Definition backslash : ascii := ascii_of_nat 92.
Definition slash : ascii := ascii_of_nat 47.
Definition newline : string := String (ascii_of_nat 10) "".

(** [s.replace(a, b)] for single characters. *)
Fixpoint replace_char (a b : ascii) (s : string) : string :=
  match s with
  | EmptyString => EmptyString
  | String c s' => String (if Ascii.eqb c a then b else c) (replace_char a b s')
  end.

Fixpoint common_prefix_len (a b : path) : nat :=
  match a, b with
  | x :: a', y :: b' => if String.eqb x y then S (common_prefix_len a' b') else 0
  | _, _ => 0
  end.

(** [s.split(sep)] for a single character. *)
Fixpoint split_at (sep : ascii) (s : string) : list string :=
  match s with
  | EmptyString => [EmptyString]
  | String c s' =>
      if Ascii.eqb c sep then EmptyString :: split_at sep s'
      else match split_at sep s' with
           | first :: others => String c first :: others
           | [] => [String c EmptyString]
           end
  end.

(** The components by which the system resolves a relative path given as
    text: the text is cut at every ["/"], and empty components and ["."]
    are passed over.  A component [".."] is not resolved: the paths of
    this development hold none. *)
Definition os_path (s : string) : path :=
  filter (λ c, c ≠ "" ∧ c ≠ ".") (split_at slash s).

(** [a in s] for a single character. *)
Fixpoint contains (a : ascii) (s : string) : bool :=
  match s with
  | EmptyString => false
  | String c s' => Ascii.eqb c a || contains a s'
  end.

(** A name as a directory lists it: not empty, not ["."] or [".."], and
    without ["/"]. *)
Definition plain (c : string) : Prop :=
  c ≠ "" ∧ c ≠ "." ∧ c ≠ ".." ∧ contains slash c = false.

(** [os.path.relpath(p, start)] for paths of plain names: the library
    first makes both paths absolute and normal, which changes nothing in
    such paths but the common prefix. *)
Definition relpath (p start : path) : string :=
  let i := common_prefix_len start p in
  let rel_list := replicate (length start - i) ".." ++ drop i p in
  match rel_list with
  | [] => "."
  | _ => String.concat "/" rel_list
  end.

Definition safe_relpath (p start : path) : string :=
  replace_char backslash slash (relpath p start).

(** *** Base64 *)

Definition b64_alphabet : list ascii :=
  list_ascii_of_string
    "ABCDEFGHIJKLMNOPQRSTUVWXYZabcdefghijklmnopqrstuvwxyz0123456789+/".

Definition b64_digit (n : N) : ascii :=
  default (ascii_of_nat 61) (b64_alphabet !! N.to_nat n).

Fixpoint b64_groups (l : list N) : string :=
  match l with
  | [] => EmptyString
  | a :: l1 =>
      match l1 with
      | [] =>
          String (b64_digit (a / 4))
            (String (b64_digit ((a mod 4) * 16)) "==")
      | b :: l2 =>
          match l2 with
          | [] =>
              String (b64_digit (a / 4))
                (String (b64_digit ((a mod 4) * 16 + b / 16))
                   (String (b64_digit ((b mod 16) * 4)) "="))
          | c :: rest =>
              String (b64_digit (a / 4))
                (String (b64_digit ((a mod 4) * 16 + b / 16))
                   (String (b64_digit ((b mod 16) * 4 + c / 64))
                      (String (b64_digit (c mod 64)) (b64_groups rest))))
          end
      end
  end%N.

(** [base64.b64encode(data).decode()]. *)
Definition b64encode (data : bytes) : string := b64_groups (map Byte.to_N data).

(** ** Events and queues *)

(** [json_event] returns the pair [(event, json.dumps(data))]. *)
Abbreviation event := (string * string)%type.

(** A [queue.Queue] object: every item ever [put], in order, and how many
    of them [get] has taken; the items from position [consumed] on are
    still waiting. *)
Record channel : Type := mkChannel {
  produced : list event;
  consumed : nat
}.

(** An entry of [upload_meta]. *)
Record meta : Type := mkMeta {
  meta_total : nat;
  meta_current : nat;
  meta_team : string
}.

(** ** The program

    The section variables are what the script takes from its libraries and
    its environment; every definition and theorem below holds for all of
    them. *)

Section App.

(** The remote store behind [requests]: a read and a write change its
    state and answer with a response, or raise (no answer). *)
Context {Remote : Type}.
Variable http_get : Remote → string → gmap string string → option response * Remote.
Variable http_put :
  Remote → string → gmap string json → gmap string string → option response * Remote.

(** [json.dumps]. *)
Variable dumps : json → string.

(** [bcrypt.checkpw pin hash]. *)
Variable checkpw : string → string → bool.

(** [zipfile]: the (sanitised) member paths of an archive with their
    contents, or [None] when the bytes are not a zip archive. *)
Variable zip_members : bytes → option (list (path * bytes)).

(** Whether the operating system lets the process unlink or rmdir a path. *)
Variable can_remove : path → bool.

(** [os.getenv "GITHUB_TOKEN"] and the contents of [teams.json]. *)
Variable GITHUB_TOKEN : option string.
Variable teams : gmap string string.

Definition GITHUB_REPO : string := "Manu-Raj/Test".

(** The module globals and everything else the handlers touch.
    [channels] is the heap of [queue.Queue] objects, addressed by
    position; [upload_queues] maps an upload id to one of them.
    [threads] holds the arguments of the workers that were started and
    have not run yet, [wire] every HTTP request sent so far. *)
Record World : Type := mkWorld {
  upload_state : gmap string bool;
  state_file : option (gmap string bool);
  channels : list channel;
  upload_queues : gmap string nat;
  upload_meta : gmap string meta;
  fs : node;
  threads : list (string * string * path);
  remote : Remote;
  wire : list request
}.

(** *** The monad *)

Definition M (A : Type) : Type := World → (exn + A) * World.

Definition ret {A} (x : A) : M A := λ w, (inr x, w).
Definition raise {A} (e : exn) : M A := λ w, (inl e, w).
Definition bind {A B} (m : M A) (k : A → M B) : M B :=
  λ w, match m w with
       | (inr x, w') => k x w'
       | (inl e, w') => (inl e, w')
       end.

(** [try: body finally: fin]. *)
Definition try_finally {A} (body : M A) (fin : M unit) : M A :=
  λ w, match body w with
       | (r, w') =>
           match fin w' with
           | (inr _, w'') => (r, w'')
           | (inl e, w'') => (inl e, w'')
           end
       end.

Definition gets {A} (f : World → A) : M A := λ w, (inr (f w), w).
Definition modify (f : World → World) : M unit := λ w, (inr tt, f w).
Definition lift {A} (r : exn + A) : M A := λ w, (r, w).

Notation "x <- m ;; k" := (bind m (λ x, k))
  (at level 100, m at next level, right associativity,
   format "'[v' x  <-  m  ;;  '/' k ']'").
Notation "m ;;; k" := (bind m (λ _, k))
  (at level 100, right associativity, format "'[v' m  ;;;  '/' k ']'").

Definition set_fs (f : node) (w : World) : World :=
  mkWorld (upload_state w) (state_file w) (channels w) (upload_queues w)
          (upload_meta w) f (threads w) (remote w) (wire w).
Definition set_remote (r : Remote) (rq : request) (w : World) : World :=
  mkWorld (upload_state w) (state_file w) (channels w) (upload_queues w)
          (upload_meta w) (fs w) (threads w) r (wire w ++ [rq]).
Definition set_channels (cs : list channel) (w : World) : World :=
  mkWorld (upload_state w) (state_file w) cs (upload_queues w)
          (upload_meta w) (fs w) (threads w) (remote w) (wire w).
Definition set_upload_queues (qs : gmap string nat) (w : World) : World :=
  mkWorld (upload_state w) (state_file w) (channels w) qs
          (upload_meta w) (fs w) (threads w) (remote w) (wire w).
Definition set_upload_meta (ms : gmap string meta) (w : World) : World :=
  mkWorld (upload_state w) (state_file w) (channels w) (upload_queues w)
          ms (fs w) (threads w) (remote w) (wire w).
Definition set_upload_state (s : gmap string bool) (w : World) : World :=
  mkWorld s (state_file w) (channels w) (upload_queues w)
          (upload_meta w) (fs w) (threads w) (remote w) (wire w).
Definition set_state_file (s : option (gmap string bool)) (w : World) : World :=
  mkWorld (upload_state w) s (channels w) (upload_queues w)
          (upload_meta w) (fs w) (threads w) (remote w) (wire w).
Definition set_threads (ts : list (string * string * path)) (w : World) : World :=
  mkWorld (upload_state w) (state_file w) (channels w) (upload_queues w)
          (upload_meta w) (fs w) ts (remote w) (wire w).

(** *** GitHub upload helper *)

(** [requests.get(url, headers=headers)]. *)
Definition requests_get (url : string) (headers : gmap string string) : M response :=
  λ w, match http_get (remote w) url headers with
       | (Some res, r') => (inr res, set_remote r' (HttpGet url headers) w)
       | (None, r') => (inl ConnectionError, set_remote r' (HttpGet url headers) w)
       end.

(** [requests.put(url, json=payload, headers=headers)]. *)
Definition requests_put (url : string) (payload : gmap string json)
    (headers : gmap string string) : M response :=
  λ w, match http_put (remote w) url payload headers with
       | (Some res, r') => (inr res, set_remote r' (HttpPut url payload headers) w)
       | (None, r') => (inl ConnectionError, set_remote r' (HttpPut url payload headers) w)
       end.

(** [open(p, "rb").read()]. *)
Definition read_bytes (p : path) : M bytes :=
  λ w, match fs_lookup (fs w) p with
       | Some (File data) => (inr data, w)
       | _ => (inl (OSError p), w)
       end.

(** [get_res.json()]. *)
Definition response_json (res : response) : M json :=
  match json_body res with
  | Some j => ret j
  | None => raise JSONDecodeError
  end.

(** [f"Bearer {GITHUB_TOKEN}"]. *)
Definition bearer : string :=
  "Bearer " +:+ match GITHUB_TOKEN with Some t => t | None => "None" end.

Definition contents_url (github_repo_path : string) : string :=
  "https://api.github.com/repos/" +:+ GITHUB_REPO +:+ "/contents/" +:+ github_repo_path.

(** [get_res.json()["sha"] if get_res.status_code == 200 else None]. *)
Definition read_sha (get_res : response) : M json :=
  if (status_code get_res =? 200)%Z
  then (j <- response_json get_res ;; lift (subscript j "sha"))
  else ret JNull.

(** The [payload] dictionary, with its ["sha"] entry when [sha] is truthy. *)
Definition make_payload (github_repo_path content : string) (sha : json)
    : gmap string json :=
  let payload : gmap string json :=
    <[ "content" := JStr content ]>
      {[ "message" := JStr ("Upload " +:+ github_repo_path) ]} in
  if truthy sha then <[ "sha" := sha ]> payload else payload.

Definition auth_headers : gmap string string := {[ "Authorization" := bearer ]}.

(** [status_code in (200, 201)]. *)
Definition is_success (status : Z) : bool := (status =? 200)%Z || (status =? 201)%Z.

Definition github_upload (local_file_path : path) (github_repo_path : string)
    : M (bool * Z * string) :=
  let url := contents_url github_repo_path in
  data <- read_bytes local_file_path ;;
  let content := b64encode data in
  let headers := auth_headers in
  get_res <- requests_get url headers ;;
  sha <- read_sha get_res ;;
  let payload := make_payload github_repo_path content sha in
  put_res <- requests_put url payload headers ;;
  ret (is_success (status_code put_res), status_code put_res, text put_res).

(** *** Files *)

(** [os.makedirs(p, exist_ok=True)]. *)
Definition os_makedirs (p : path) : M unit :=
  λ w, match makedirs (fs w) p with
       | Some n => (inr tt, set_fs n w)
       | None => (inl (OSError p), w)
       end.

(** [file.save(p)]. *)
Definition file_save (p : path) (data : bytes) : M unit :=
  λ w, match write_file (fs w) p data with
       | Some n => (inr tt, set_fs n w)
       | None => (inl (OSError p), w)
       end.

(** [os.remove(p)]. *)
Definition os_remove (p : path) : M unit :=
  λ w, if can_remove p
       then match remove_file (fs w) p with
            | Some n => (inr tt, set_fs n w)
            | None => (inl (OSError p), w)
            end
       else (inl (OSError p), w).

(** [zipfile.ZipFile(p, "r")]: the members of the archive stored at [p]. *)
Definition zip_open (p : path) : M (list (path * bytes)) :=
  data <- read_bytes p ;;
  match zip_members data with
  | Some members => ret members
  | None => raise BadZipFile
  end.

(** [z.extractall(dest)]: every member in turn, its parent directories
    first; what was extracted before a failure stays.  The members are
    taken as [zipfile] lays them out, their names made safe.  A member
    that lands on the open archive itself is written like any other, as
    the library does while its reads are served from its buffer; with a
    large archive it can fail there. *)
Fixpoint extractall (members : list (path * bytes)) (dest : path) : M unit :=
  match members with
  | [] => ret tt
  | (mp, data) :: rest =>
      os_makedirs (dest ++ removelast mp) ;;;
      file_save (dest ++ mp) data ;;;
      extractall rest dest
  end.

(** What [shutil.rmtree(p, ignore_errors=True)] leaves of a node: an
    entry is unlinked only where the system allows it, a directory is
    removed only once it is empty, and every failure is passed over. *)
Fixpoint rmtree_node (p : path) (n : node) : option node :=
  match n with
  | File data => if can_remove p then None else Some (File data)
  | Dir entries =>
      let rest :=
        (fix each (es : list (string * node)) : list (string * node) :=
           match es with
           | [] => []
           | (name, child) :: es' =>
               match rmtree_node (p ++ [name]) child with
               | Some child' => (name, child') :: each es'
               | None => each es'
               end
           end) entries in
      match rest with
      | [] => if can_remove p then None else Some (Dir [])
      | _ :: _ => Some (Dir rest)
      end
  end.

(** The working directory after [shutil.rmtree(p, ignore_errors=True)]:
    nothing happens when [p] is not a directory. *)
Definition rmtree_fs (cwd : node) (p : path) : node :=
  match fs_lookup cwd p with
  | Some (Dir entries) => fs_update cwd p (rmtree_node p (Dir entries))
  | _ => cwd
  end.

Definition shutil_rmtree (p : path) : M unit :=
  modify (λ w, set_fs (rmtree_fs (fs w) p) w).

(** [os.walk(top)] flattened by the two [for] loops of [process_upload]. *)
Definition os_walk (top : path) : M (list path) :=
  gets (λ w, os_walk_files (fs w) top).

(** [time.sleep]; the argument is in milliseconds. *)
Definition time_sleep (ms : nat) : M unit := ret tt.

(** *** SSE upload processing *)

Definition json_event (name : string) (data : json) : event := (name, dumps data).

(** [q.put(ev)] on the queue object at position [q]. *)
Definition q_put (q : nat) (ev : event) : M unit :=
  modify (λ w,
    set_channels
      (alter (λ c, mkChannel (produced c ++ [ev]) (consumed c)) q (channels w)) w).

(** [upload_meta[upload_id]["current"] = i]. *)
Definition set_current (upload_id : string) (i : nat) : M unit :=
  λ w, match upload_meta w !! upload_id with
       | Some m =>
           (inr tt,
            set_upload_meta
              (<[upload_id := mkMeta (meta_total m) i (meta_team m)]> (upload_meta w)) w)
       | None => (inl (KeyError upload_id), w)
       end.

Definition ev_info (total : nat) : event :=
  json_event "info" (JStr (pretty total +:+ " files to upload.")).
Definition ev_upload_start (gh_path : string) (i total : nat) : event :=
  json_event "upload_start"
    (JObj [("file", JStr gh_path); ("index", JNum (Z.of_nat i));
           ("total", JNum (Z.of_nat total))]).
Definition ev_upload_done (gh_path : string) (status : Z) : event :=
  json_event "upload_done" (JObj [("file", JStr gh_path); ("status", JNum status)]).
Definition ev_upload_error (gh_path : string) (status : Z) (resp : string) : event :=
  json_event "upload_error"
    (JObj [("file", JStr gh_path); ("status", JNum status); ("response", JStr resp)]).
Definition ev_finished : event := json_event "finished" (JStr "All uploads completed.").
Definition ev_closed : event := json_event "closed" (JStr "Upload thread ended.").

Definition gh_path_of (team : string) (temp_dir file_path : path) : string :=
  "submissions/" +:+ team +:+ "/" +:+ safe_relpath file_path temp_dir.

(** The body of [for i, file_path in enumerate(all_files, start=1)], from
    index [i] on. *)
Fixpoint upload_loop (q : nat) (upload_id team : string) (temp_dir : path)
    (total i : nat) (files : list path) : M unit :=
  match files with
  | [] => ret tt
  | file_path :: rest =>
      let gh_path := gh_path_of team temp_dir file_path in
      q_put q (ev_upload_start gh_path i total) ;;;
      r <- github_upload file_path gh_path ;;
      (let '(ok, status, resp) := r in
       if ok : bool
       then q_put q (ev_upload_done gh_path status)
       else q_put q (ev_upload_error gh_path status resp)) ;;;
      set_current upload_id i ;;;
      time_sleep 50 ;;;
      upload_loop q upload_id team temp_dir total (S i) rest
  end.

(** The [try] block of [process_upload]. *)
Definition process_body (q : nat) (upload_id team : string) (temp_dir : path) : M unit :=
  all_files <- os_walk temp_dir ;;
  let total := length all_files in
  modify (λ w, set_upload_meta (<[upload_id := mkMeta total 0 team]> (upload_meta w)) w) ;;;
  q_put q (ev_info total) ;;;
  upload_loop q upload_id team temp_dir total 1 all_files ;;;
  q_put q ev_finished.

(** The statements of the [finally] block of [process_upload], kept as
    a list so that the world in which each one runs can be told. *)
Inductive stmt : Type :=
| Sleep (ms : nat)
| Rmtree (p : path)
| Put (q : nat) (ev : event).

Definition exec (s : stmt) : M unit :=
  match s with
  | Sleep ms => time_sleep ms
  | Rmtree p => shutil_rmtree p
  | Put q ev => q_put q ev
  end.

Fixpoint exec_all (block : list stmt) : M unit :=
  match block with
  | [] => ret tt
  | s :: rest => exec s ;;; exec_all rest
  end.

(** [time.sleep(1)], [shutil.rmtree(temp_dir, ignore_errors=True)],
    [q.put(json_event("closed", ...))], in program order. *)
Definition finally_block (q : nat) (temp_dir : path) : list stmt :=
  [Sleep 1000; Rmtree temp_dir; Put q ev_closed].

(** The [finally] block of [process_upload]. *)
Definition process_cleanup (q : nat) (temp_dir : path) : M unit :=
  exec_all (finally_block q temp_dir).

Definition process_upload (upload_id team : string) (temp_dir : path) : M unit :=
  oq <- gets (λ w, upload_queues w !! upload_id) ;;
  match oq with
  | None => ret tt
  | Some q => try_finally (process_body q upload_id team temp_dir) (process_cleanup q temp_dir)
  end.

(** *** Routes *)

Inductive method : Type := GET | POST.

(** The Flask session cookie: the value stored under ["team"], and
    whether the key ["admin"] is present. *)
Record session : Type := mkSession {
  sess_team : option string;
  sess_admin : bool
}.

Definition no_session : session := mkSession None false.

(** What a view returns. *)
Inductive reply : Type :=
| Rendered (template : string) (error : option string)
| Redirect (endpoint : string) (upload_id : option string)
| Plain (body : string) (status : Z)
| EventStream (q : nat).

(** [save_upload_state()]: the whole dictionary is written out.  The
    write is taken to succeed; in the program [open] and [json.dump] can
    raise [OSError], after the table in memory has been changed. *)
Definition save_upload_state : M unit :=
  modify (λ w, set_state_file (Some (upload_state w)) w).

(** [upload_state.get(team)] as a condition. *)
Definition has_submitted (w : World) (team : string) : bool :=
  default false (upload_state w !! team).

Definition verify (m : method) (form_team form_pin : option string) (sess : session)
    : M (reply * session) :=
  match m with
  | POST =>
      let pin := default "" form_pin in
      let stored_hash := form_team ≫= (λ team, teams !! team) in
      match form_team, stored_hash with
      | Some team, Some hash =>
          if negb (String.eqb hash "") && checkpw pin hash
          then
            if String.eqb team "VEGAVATH ADS"
            then ret (Redirect "admin_panel" None, mkSession (sess_team sess) true)
            else
              submitted <- gets (λ w, has_submitted w team) ;;
              if submitted : bool
              then ret (Rendered "verify.html"
                          (Some "⚠️ Your team already submitted. Contact admin to unlock."),
                        sess)
              else ret (Redirect "upload" None, mkSession (Some team) (sess_admin sess))
          else ret (Rendered "verify.html" (Some "❌ Wrong PIN"), sess)
      | _, _ => ret (Rendered "verify.html" (Some "❌ Wrong PIN"), sess)
      end
  | GET => ret (Rendered "verify.html" None, sess)
  end.

(** [q = queue.Queue()]: a new, empty queue object. *)
Definition queue_new : M nat :=
  λ w, (inr (length (channels w)), set_channels (channels w ++ [mkChannel [] 0]) w).

(** [q = queue.Queue(); upload_queues[upload_id] = q]. *)
Definition register (upload_id : string) : M nat :=
  q <- queue_new ;;
  modify (λ w, set_upload_queues (<[upload_id := q]> (upload_queues w)) w) ;;;
  ret q.

(** [threading.Thread(target=process_upload, args=..., daemon=True).start()].
    The start is taken to succeed; in the program it can raise
    [RuntimeError] when the system gives no more threads. *)
Definition thread_start (upload_id team : string) (temp_dir : path) : M unit :=
  modify (λ w, set_threads (threads w ++ [(upload_id, team, temp_dir)]) w).

(** [f"temp_{team}_{upload_id}"], a path relative to the working
    directory: a ["/"] in the team name makes it a nested one. *)
Definition staging_dir (team upload_id : string) : path :=
  os_path ("temp_" +:+ team +:+ "_" +:+ upload_id).

(** The part of the [/upload] view that stages the archive, from
    [os.makedirs] to [os.remove]: the uploaded file is saved in the new
    staging directory, unpacked there and removed. *)
Definition stage_archive (temp_dir : path) (file : option bytes) : M unit :=
  os_makedirs temp_dir ;;;
  data <- lift (match file with
                | Some d => inr d
                | None => inl (KeyError "file")
                end) ;;
  let zip_path := temp_dir ++ ["sub.zip"] in
  file_save zip_path data ;;;
  z <- zip_open zip_path ;;
  extractall z temp_dir ;;;
  os_remove zip_path.

(** The [/upload] view; [uuid] is the value drawn by [uuid.uuid4()] and
    [file] is [request.files["file"]], when the form has one. *)
Definition upload (m : method) (sess : session) (file : option bytes) (uuid : string)
    : M (reply * session) :=
  match sess_team sess with
  | None => ret (Redirect "verify" None, sess)
  | Some team =>
      match m with
      | POST =>
          let upload_id := uuid in
          let temp_dir := staging_dir team upload_id in
          stage_archive temp_dir file ;;;
          modify (λ w, set_upload_state (<[team := true]> (upload_state w)) w) ;;;
          save_upload_state ;;;
          register upload_id ;;;
          thread_start upload_id team temp_dir ;;;
          ret (Redirect "success" (Some upload_id), no_session)
      | GET => ret (Rendered "upload.html" None, sess)
      end
  end.

Definition success (sess : session) : M (reply * session) :=
  ret (Rendered "success.html" None, sess).

(** The [/events/<upload_id>] view: the response wraps the generator
    [stream()], which holds the queue object found here. *)
Definition events (upload_id : string) (sess : session) : M (reply * session) :=
  oq <- gets (λ w, upload_queues w !! upload_id) ;;
  match oq with
  | None => ret (Plain "Invalid" 404, sess)
  | Some q => ret (EventStream q, sess)
  end.

(** [q.get()]: takes the oldest pending item; [None] when there is none
    and the call blocks. *)
Definition q_get (q : nat) (w : World) : option (event * World) :=
  c ← channels w !! q;
  ev ← produced c !! consumed c;
  Some (ev, set_channels (<[q := mkChannel (produced c) (S (consumed c))]> (channels w)) w).

(** One turn of the loop in [stream()]: the chunk that is yielded, whether
    the generator ends after it, and the world left behind; [None] while
    [q.get()] blocks. *)
Definition stream_next (q : nat) (w : World) : option (string * bool * World) :=
  '(ev, w') ← q_get q w;
  Some ("event: " +:+ ev.1 +:+ newline +:+ "data: " +:+ ev.2 +:+ newline +:+ newline,
        String.eqb ev.1 "closed", w').

Definition admin_panel (sess : session) : M (reply * session) :=
  if sess_admin sess
  then ret (Rendered "admin.html" None, sess)
  else ret (Redirect "verify" None, sess).

Definition reset_team (team : string) (sess : session) : M (reply * session) :=
  if sess_admin sess
  then
    modify (λ w, set_upload_state (<[team := false]> (upload_state w)) w) ;;;
    save_upload_state ;;;
    ret (Redirect "admin_panel" None, sess)
  else ret (Redirect "verify" None, sess).

(** *** The running server *)

(** What can happen next: a request is served, the consumer of a stream
    asks for the next chunk, or a started worker thread runs. *)
Inductive action : Type :=
| DoVerify (m : method) (form_team form_pin : option string) (sess : session)
| DoUpload (m : method) (sess : session) (file : option bytes) (uuid : string)
| DoSuccess (sess : session)
| DoEvents (upload_id : string) (sess : session)
| DoAdminPanel (sess : session)
| DoReset (team : string) (sess : session)
| DoStreamNext (q : nat)
| DoRunWorker (i : nat).

(** The world after a view ran; an exception that leaves the view is
    answered by Flask and changes nothing more. *)
Definition after {A} (view : M A) (w : World) : World := (view w).2.

(** The [i]-th started thread runs [process_upload] to its end. *)
Definition run_worker (i : nat) (w : World) : option World :=
  match threads w !! i with
  | Some (upload_id, team, temp_dir) =>
      Some (after (process_upload upload_id team temp_dir)
                  (set_threads (delete i (threads w)) w))
  | None => None
  end.

(** [None] when the action cannot happen in [w].  An upload draws an id
    that [uuid.uuid4()] has not produced before. *)
Definition perform (a : action) (w : World) : option World :=
  match a with
  | DoVerify m t p sess => Some (after (verify m t p sess) w)
  | DoUpload m sess file uuid =>
      match m, upload_queues w !! uuid with
      | POST, Some _ => None
      | _, _ => Some (after (upload m sess file uuid) w)
      end
  | DoSuccess sess => Some (after (success sess) w)
  | DoEvents upload_id sess => Some (after (events upload_id sess) w)
  | DoAdminPanel sess => Some (after (admin_panel sess) w)
  | DoReset team sess => Some (after (reset_team team sess) w)
  | DoStreamNext q => (λ r, r.2) <$> stream_next q w
  | DoRunWorker i => run_worker i w
  end.

Inductive step (w : World) : World → Prop :=
| step_perform a w' : perform a w = Some w' → step w w'.

(** The world when the module has been loaded: [upload_state] comes from
    [uploads_state.json] when that file exists. *)
Definition boot (saved : option (gmap string bool)) (cwd : node) (r : Remote) : World :=
  mkWorld (default ∅ saved) saved [] ∅ ∅ cwd [] r [].

(** The worlds the server can be in after starting in [w0]. *)
Inductive reachable (w0 : World) : World → Prop :=
| reach_start : reachable w0 w0
| reach_step w w' : reachable w0 w → step w w' → reachable w0 w'.

(** The world with the lock of [team] set and saved, as [/upload] leaves
    it before it registers the queue and starts the worker. *)
Definition locked (team : string) (w : World) : World :=
  set_state_file (Some (<[team := true]> (upload_state w)))
    (set_upload_state (<[team := true]> (upload_state w)) w).

(** *** Observations *)

(** A world that holds nothing but a working directory and a remote
    store, and a world [w] that takes the remote store of [wp] and
    appends the requests [wp] has seen. *)
Definition probe (cwd : node) (r : Remote) : World :=
  mkWorld ∅ None [] ∅ ∅ cwd [] r [].
Definition graft (w wp : World) : World :=
  mkWorld (upload_state w) (state_file w) (channels w) (upload_queues w)
          (upload_meta w) (fs w) (threads w) (remote wp) (wire w ++ wire wp).

(** Everything that was ever put on the queue object at position [q]. *)
Definition produced_at (q : nat) (w : World) : list event :=
  default [] (produced <$> channels w !! q).

(** How a call of [github_upload] ends: with an exception, or with the
    triple it returns. *)
Abbreviation answer := (exn + bool * Z * string)%type.

(** The answers that the calls of [github_upload] get when [files] are
    sent in order, the first one to a remote store in state [r]; the list
    ends with the first exception. *)
Fixpoint upsert_answers (cwd : node) (r : Remote) (team : string) (temp_dir : path)
    (files : list path) : list answer :=
  match files with
  | [] => []
  | file_path :: rest =>
      match github_upload file_path (gh_path_of team temp_dir file_path) (probe cwd r) with
      | (inl e, _) => [inl e]
      | (inr res, wp) => inr res :: upsert_answers cwd (remote wp) team temp_dir rest
      end
  end.

(** The first exception among the answers, if there is one. *)
Fixpoint loop_outcome (answers : list answer) : exn + unit :=
  match answers with
  | [] => inr tt
  | inl e :: _ => inl e
  | inr _ :: rest => loop_outcome rest
  end.

Definition all_returned (answers : list answer) : bool :=
  match loop_outcome answers with inr _ => true | inl _ => false end.

(** The second event of a file, after its [upload_start]. *)
Definition ev_outcome (gh_path : string) (res : bool * Z * string) : event :=
  let '(ok, status, resp) := res in
  if ok : bool then ev_upload_done gh_path status
  else ev_upload_error gh_path status resp.

(** The events of the files from index [i] on, given the answers. *)
Fixpoint loop_events (team : string) (temp_dir : path) (total i : nat)
    (files : list path) (answers : list answer) : list event :=
  match files, answers with
  | file_path :: rest, a :: answers' =>
      let gh_path := gh_path_of team temp_dir file_path in
      ev_upload_start gh_path i total ::
      match a with
      | inr res => ev_outcome gh_path res :: loop_events team temp_dir total (S i) rest answers'
      | inl _ => []
      end
  | _, _ => []
  end.

(** The events of one run of the worker over [files], given the answers:
    [finished] is there only when no call raised. *)
Definition body_events (team : string) (temp_dir : path) (files : list path)
    (answers : list answer) : list event :=
  ev_info (length files) ::
  loop_events team temp_dir (length files) 1 files answers ++
  (if all_returned answers then [ev_finished] else []).

Definition worker_events (team : string) (temp_dir : path) (files : list path)
    (answers : list answer) : list event :=
  body_events team temp_dir files answers ++ [ev_closed].

(** What a run of the worker leaves alone. *)
Definition worker_frame (q : nat) (w w' : World) : Prop :=
  upload_queues w' = upload_queues w ∧ threads w' = threads w ∧
  upload_state w' = upload_state w ∧ state_file w' = state_file w ∧
  length (channels w') = length (channels w) ∧
  (∀ q', q' ≠ q → channels w' !! q' = channels w !! q') ∧
  consumed <$> channels w' !! q = consumed <$> channels w !! q.

(** A queue on which nothing was put yet, or on which [closed] is the
    last item and occurs nowhere else. *)
Definition closed_last (l : list event) : Prop :=
  l = [] ∨ ∃ evs, l = evs ++ [ev_closed] ∧ Forall (λ e, e.1 ≠ "closed") evs.

(** What holds in every world the server reaches: registered queues
    exist and are registered once; a thread that has not run yet has a
    registered queue on which nothing was put, and no two such threads
    share an id; every queue is [closed_last], and no more was taken from
    it than was put. *)
Definition server_inv (w : World) : Prop :=
  (∀ uid q, upload_queues w !! uid = Some q → q < length (channels w)) ∧
  (∀ uid1 uid2 q,
     upload_queues w !! uid1 = Some q → upload_queues w !! uid2 = Some q → uid1 = uid2) ∧
  (∀ t, t ∈ threads w → ∃ q, upload_queues w !! t.1.1 = Some q ∧ produced_at q w = []) ∧
  NoDup ((λ t : string * string * path, t.1.1) <$> threads w) ∧
  (∀ q c, channels w !! q = Some c →
          closed_last (produced c) ∧ consumed c ≤ length (produced c)).

(** A sequence of actions, performed in order. *)
Fixpoint run (acts : list action) (w : World) : option World :=
  match acts with
  | [] => Some w
  | a :: rest =>
      match perform a w with
      | Some w' => run rest w'
      | None => None
      end
  end.



(** *** The claims read literally *)

(** Registration read literally: an id that is already registered is
    refused, and the registry keeps the channel it had. *)
Definition register_refuses_duplicate (w : World) (upload_id : string) : Prop :=
  is_Some (upload_queues w !! upload_id) →
  ∃ e, (register upload_id w).1 = inl e ∧
       upload_queues (register upload_id w).2 = upload_queues w.

(** A failed extraction read literally: the request fails and the world
    is as it was before. *)
Definition corrupt_archive_is_atomic (w : World) (sess : session) (data : bytes)
    (uuid : string) : Prop :=
  zip_members data = None →
  let out := upload POST sess (Some data) uuid w in
  (∃ e, out.1 = inl e) ∧
  threads out.2 = threads w ∧
  upload_queues out.2 = upload_queues w ∧
  upload_state out.2 = upload_state w ∧
  fs out.2 = fs w.

(** The order of the file list read literally: it does not depend on the
    order in which a directory lists its entries (as it would not if the
    walk sorted them). *)
Definition file_list_order_is_stable (root : path) (es : list (string * node)) : Prop :=
  ∀ es', es' ≡ₚ es → walk root (Dir es') = walk root (Dir es).




(** *** Further observations *)

(** How many calls of [github_upload] returned before the first one
    raised. *)
Fixpoint returned (answers : list answer) : nat :=
  match answers with
  | inr _ :: rest => S (returned rest)
  | _ => 0
  end.

(** The requests that go out when [files] are sent in order, the first
    one to a remote store in state [r]; they end with those of the first
    call that raises. *)
Fixpoint upsert_requests (cwd : node) (r : Remote) (team : string) (temp_dir : path)
    (files : list path) : list request :=
  match files with
  | [] => []
  | file_path :: rest =>
      match github_upload file_path (gh_path_of team temp_dir file_path) (probe cwd r) with
      | (inl _, wp) => wire wp
      | (inr _, wp) => wire wp ++ upsert_requests cwd (remote wp) team temp_dir rest
      end
  end.


(** The parts of the world that no statement of the worker writes. *)
Definition untouched (w w' : World) : Prop :=
  upload_state w' = upload_state w ∧ state_file w' = state_file w ∧
  upload_queues w' = upload_queues w ∧ threads w' = threads w ∧
  length (channels w') = length (channels w).

(** One chunk of the event stream: [f"event: {event}\ndata: {data}\n\n"]. *)
Definition sse_chunk (ev : event) : string :=
  "event: " +:+ ev.1 +:+ newline +:+ "data: " +:+ ev.2 +:+ newline +:+ newline.

(** The generator [stream()] driven for at most [fuel] items: the chunks
    it yields, whether it has ended (after [closed]), and the world left
    behind.  It stops early where [q.get()] blocks. *)
Fixpoint stream (fuel : nat) (q : nat) (w : World) : list string * bool * World :=
  match fuel with
  | 0 => ([], false, w)
  | S fuel' =>
      match stream_next q w with
      | None => ([], false, w)
      | Some (chunk, ended, w') =>
          if ended : bool then ([chunk], true, w')
          else
            let '(chunks, e, w'') := stream fuel' q w' in
            (chunk :: chunks, e, w'')
      end
  end.

(** The items of a queue up to and including the first [closed]. *)
Fixpoint upto_closed (l : list event) : list event :=
  match l with
  | [] => []
  | ev :: rest => if String.eqb ev.1 "closed" then [ev] else ev :: upto_closed rest
  end.

(** Whether a view ended with an exception. *)
Definition is_raise {A} (out : (exn + A) * World) : bool :=
  match out.1 with inl _ => true | inr _ => false end.

(** Whether serving the request of an action in [w] ends with an
    exception, which Flask answers with status 500.  A turn of a stream
    and a run of a worker are no requests. *)
Definition raises (a : action) (w : World) : bool :=
  match a with
  | DoVerify m t p sess => is_raise (verify m t p sess w)
  | DoUpload m sess file uuid => is_raise (upload m sess file uuid w)
  | DoSuccess sess => is_raise (success sess w)
  | DoEvents upload_id sess => is_raise (events upload_id sess w)
  | DoAdminPanel sess => is_raise (admin_panel sess w)
  | DoReset team sess => is_raise (reset_team team sess w)
  | DoStreamNext _ | DoRunWorker _ => false
  end.

(** A sequence of actions performed in order, in which every request is
    answered without an exception. *)
Fixpoint run_answered (acts : list action) (w : World) : option World :=
  match acts with
  | [] => Some w
  | a :: rest =>
      if raises a w then None
      else match perform a w with
           | Some w' => run_answered rest w'
           | None => None
           end
  end.

(** A tree in which no directory lists a name twice. *)
Fixpoint wf_node (n : node) : bool :=
  match n with
  | File _ => true
  | Dir entries =>
      bool_decide (NoDup (map fst entries)) &&
      (fix each (es : list (string * node)) : bool :=
         match es with
         | [] => true
         | (_, child) :: es' => wf_node child && each es'
         end) entries
  end.

(** ** Facts *)

(** *** The monad *)

Lemma bind_inr {A B} (m : M A) (k : A → M B) w x w' :
  bind m k w = (inr x, w') →
  ∃ a w1, m w = (inr a, w1) ∧ k a w1 = (inr x, w').
Proof.
  unfold bind. destruct (m w) as [[e|a] w1]; [discriminate|]. eauto.
Qed.

Lemma bind_inl {A B} (m : M A) (k : A → M B) w e w' :
  bind m k w = (inl e, w') →
  m w = (inl e, w') ∨ ∃ a w1, m w = (inr a, w1) ∧ k a w1 = (inl e, w').
Proof.
  unfold bind. destruct (m w) as [[e1|a] w1]; [left | right; eauto].
  congruence.
Qed.

Lemma bind_eq_inr {A B} (m : M A) (k : A → M B) w a w1 :
  m w = (inr a, w1) → bind m k w = k a w1.
Proof. unfold bind. by intros ->. Qed.

Lemma bind_eq_inl {A B} (m : M A) (k : A → M B) w e w1 :
  m w = (inl e, w1) → bind m k w = (inl e, w1).
Proof. unfold bind. by intros ->. Qed.

(** *** GitHub upload helper *)

Lemma read_sha_inr get_res w sha w' :
  read_sha get_res w = (inr sha, w') →
  w' = w ∧
  ((status_code get_res ≠ 200%Z ∧ sha = JNull) ∨
   (status_code get_res = 200%Z ∧
    ∃ j, json_body get_res = Some j ∧ subscript j "sha" = inr sha)).
Proof.
  unfold read_sha. destruct (Z.eqb_spec (status_code get_res) 200) as [E|E].
  - intros H. apply bind_inr in H as (j & w1 & Hj & Hs).
    unfold response_json in Hj. destruct (json_body get_res) as [j'|] eqn:Ej;
      [|discriminate].
    unfold ret in Hj. simplify_eq. unfold lift in Hs. simplify_eq.
    split; [done|]. right. eauto.
  - unfold ret. intros H. simplify_eq. split; [done|]. by left.
Qed.



(** What a call of [github_upload] that returns has done. *)
Lemma github_upload_inr lp gp w ok st txt w' :
  github_upload lp gp w = (inr (ok, st, txt), w') →
  ∃ data get_res r1 sha put_res r2,
    fs_lookup (fs w) lp = Some (File data) ∧
    http_get (remote w) (contents_url gp) auth_headers = (Some get_res, r1) ∧
    ((status_code get_res ≠ 200%Z ∧ sha = JNull) ∨
     (status_code get_res = 200%Z ∧
      ∃ j, json_body get_res = Some j ∧ subscript j "sha" = inr sha)) ∧
    http_put r1 (contents_url gp) (make_payload gp (b64encode data) sha) auth_headers
      = (Some put_res, r2) ∧
    w' = set_remote r2
           (HttpPut (contents_url gp) (make_payload gp (b64encode data) sha) auth_headers)
           (set_remote r1 (HttpGet (contents_url gp) auth_headers) w) ∧
    ok = is_success (status_code put_res) ∧
    st = status_code put_res ∧ txt = text put_res.
Proof.
  unfold github_upload. intros H.
  apply bind_inr in H as (data & w1 & Hread & H).
  unfold read_bytes in Hread.
  destruct (fs_lookup (fs w) lp) as [[d|]|] eqn:Elp; simplify_eq.
  apply bind_inr in H as (get_res & w2 & Hget & H).
  unfold requests_get in Hget.
  destruct (http_get (remote w1) (contents_url gp) auth_headers) as [[res|] r1] eqn:Eg;
    simplify_eq.
  apply bind_inr in H as (sha & w3 & Hsha & H).
  pose proof (read_sha_inr _ _ _ _ Hsha) as [-> Hmark].
  apply bind_inr in H as (put_res & w4 & Hput & H).
  unfold requests_put in Hput. cbn [remote set_remote] in Hput.
  destruct (http_put r1 _ _ _) as [[res|] r2] eqn:Ep; simplify_eq.
  unfold ret in H. simplify_eq.
  exists data, get_res, r1, sha, put_res, r2. done.
Qed.



(** [github_upload] does return when the local file can be read, both
    requests are answered, and a read answered with 200 carries a JSON
    object with a ["sha"] key. *)
Lemma github_upload_returns lp gp w data get_res r1 sha put_res r2 :
  fs_lookup (fs w) lp = Some (File data) →
  http_get (remote w) (contents_url gp) auth_headers = (Some get_res, r1) →
  (if (status_code get_res =? 200)%Z
   then ∃ j, json_body get_res = Some j ∧ subscript j "sha" = inr sha
   else sha = JNull) →
  http_put r1 (contents_url gp) (make_payload gp (b64encode data) sha) auth_headers
    = (Some put_res, r2) →
  ∃ w', github_upload lp gp w
        = (inr (is_success (status_code put_res), status_code put_res, text put_res), w').
Proof.
  intros Hlp Hget Hsha Hput. unfold github_upload.
  erewrite bind_eq_inr; [|unfold read_bytes; by rewrite Hlp].
  erewrite bind_eq_inr; [|unfold requests_get; by rewrite Hget].
  erewrite (bind_eq_inr (read_sha get_res)); last first.
  { unfold read_sha. destruct (status_code get_res =? 200)%Z.
    - destruct Hsha as (j & Hj & Hs). unfold response_json. rewrite Hj.
      unfold bind, ret, lift. by rewrite Hs.
    - subst sha. reflexivity. }
  erewrite bind_eq_inr; [|unfold requests_put; cbn [remote set_remote]; by rewrite Hput].
  unfold ret. eauto.
Qed.

(** *** The worker *)

(** [github_upload] reads the working directory and the remote store and
    nothing else; it changes the remote store and nothing else. *)
Lemma github_upload_frame lp gp w :
  github_upload lp gp w
  = ((github_upload lp gp (probe (fs w) (remote w))).1,
     graft w (github_upload lp gp (probe (fs w) (remote w))).2).
Proof.
  unfold github_upload, bind, read_bytes, requests_get, requests_put, read_sha,
    response_json, lift, ret, raise, graft, set_remote, probe.
  destruct w as [us sf cs uq um cwd ts r wr]. cbn.
  destruct (fs_lookup cwd lp) as [[data|]|]; cbn;
    try (by rewrite app_nil_r).
  destruct (http_get r (contents_url gp) auth_headers) as [[get_res|] r1]; cbn;
    [|done].
  destruct (status_code get_res =? 200)%Z; cbn.
  - destruct (json_body get_res) as [j|]; cbn; [|done].
    destruct (subscript j "sha") as [e|sha]; cbn; [done|].
    destruct (http_put r1 _ _ _) as [[put_res|] r2]; cbn; by rewrite <- ?app_assoc.
  - destruct (http_put r1 _ _ _) as [[put_res|] r2]; cbn; by rewrite <- ?app_assoc.
Qed.

Lemma produced_at_alter q ev (w : World) :
  q < length (channels w) →
  produced_at q
    (set_channels (alter (λ c, mkChannel (produced c ++ [ev]) (consumed c)) q (channels w)) w)
  = produced_at q w ++ [ev].
Proof.
  intros Hq. unfold produced_at. cbn [channels set_channels].
  rewrite list_lookup_alter_eq.
  destruct (lookup_lt_is_Some_2 _ _ Hq) as [c Hc]. by rewrite Hc.
Qed.

Lemma worker_frame_refl q w : worker_frame q w w.
Proof. by repeat split. Qed.

Lemma worker_frame_trans q w1 w2 w3 :
  worker_frame q w1 w2 → worker_frame q w2 w3 → worker_frame q w1 w3.
Proof.
  intros (?&?&?&?&?&Ha&?) (?&?&?&?&?&Hb&?).
  repeat split; try congruence.
  intros q' Hq'. rewrite Hb, Ha; done.
Qed.

Lemma q_put_frame q ev w : worker_frame q w (q_put q ev w).2.
Proof.
  unfold q_put, modify. cbn. repeat split; cbn.
  - by rewrite length_alter.
  - intros q' Hq'. by rewrite list_lookup_alter_ne.
  - rewrite list_lookup_alter_eq. by destruct (channels w !! q).
Qed.

Lemma graft_frame q w wp : worker_frame q w (graft w wp).
Proof. by repeat split. Qed.

(** One turn of the loop. *)
Lemma upload_loop_cons q uid team td total i f rest w :
  upload_loop q uid team td total i (f :: rest) w
  = let gh := gh_path_of team td f in
    match github_upload f gh (q_put q (ev_upload_start gh i total) w).2 with
    | (inl e, w2) => (inl e, w2)
    | (inr res, w2) =>
        match set_current uid i (q_put q (ev_outcome gh res) w2).2 with
        | (inl e, w4) => (inl e, w4)
        | (inr _, w4) => upload_loop q uid team td total (S i) rest w4
        end
    end.
Proof.
  cbn [upload_loop]. cbn zeta. unfold bind at 1. cbn [q_put modify snd].
  unfold bind at 1.
  destruct (github_upload f _ _) as [[e|[[ok st] resp]] w2]; [done|].
  unfold bind at 1. unfold ev_outcome.
  destruct ok; cbn [q_put modify snd]; unfold bind at 1;
    (destruct (set_current uid i _) as [[e|[]] w4]; [done|]); done.
Qed.

Lemma upload_loop_spec q uid team td total files :
  ∀ i w,
    q < length (channels w) → is_Some (upload_meta w !! uid) →
    let answers := upsert_answers (fs w) (remote w) team td files in
    let out := upload_loop q uid team td total i files w in
    produced_at q out.2 = produced_at q w ++ loop_events team td total i files answers ∧
    out.1 = loop_outcome answers ∧
    fs out.2 = fs w ∧
    is_Some (upload_meta out.2 !! uid) ∧
    worker_frame q w out.2.
Proof.
  induction files as [|f rest IH]; intros i w Hq Hm; cbn zeta.
  { cbn. rewrite app_nil_r. split_and!; first [done | apply worker_frame_refl]. }
  rewrite upload_loop_cons. cbn zeta. cbn [upsert_answers loop_events].
  set (gh := gh_path_of team td f).
  set (w1 := (q_put q (ev_upload_start gh i total) w).2).
  assert (Hp1 : produced_at q w1 = produced_at q w ++ [ev_upload_start gh i total])
    by (by apply produced_at_alter).
  assert (Hf1 : worker_frame q w w1) by apply q_put_frame.
  rewrite github_upload_frame.
  change (fs w1) with (fs w). change (remote w1) with (remote w).
  destruct (github_upload f gh (probe (fs w) (remote w))) as [[e|res] wp]
    eqn:Eup; cbn [fst snd].
  { cbn [loop_outcome].
    split_and!; first [done | eapply worker_frame_trans; [exact Hf1|apply graft_frame]]. }
  set (w2 := graft w1 wp).
  set (w3 := (q_put q (ev_outcome gh res) w2).2).
  assert (Hq2 : q < length (channels w2)).
  { destruct Hf1 as (_&_&_&_&Hl&_). cbn [w2 graft channels]. by rewrite Hl. }
  assert (Hp3 : produced_at q w3
                = produced_at q w ++ [ev_upload_start gh i total; ev_outcome gh res]).
  { unfold w3. cbn [q_put modify snd]. rewrite produced_at_alter by done.
    change (produced_at q w2) with (produced_at q w1). rewrite Hp1.
    by rewrite <- app_assoc. }
  assert (Hf3 : worker_frame q w w3).
  { eapply worker_frame_trans; [exact Hf1|].
    eapply worker_frame_trans; [apply (graft_frame q w1 wp)|].
    apply q_put_frame. }
  unfold set_current.
  change (upload_meta w3) with (upload_meta w).
  destruct Hm as [m Hm]. rewrite Hm.
  set (w4 := set_upload_meta _ w3).
  specialize (IH (S i) w4).
  change (fs w4) with (fs w) in IH. change (remote w4) with (remote wp) in IH.
  cbn zeta in IH.
  destruct IH as (IH1 & IH2 & IH3 & IH4 & IH5).
  { change (channels w4) with (channels w3).
    destruct Hf3 as (_&_&_&_&Hl&_). by rewrite Hl. }
  { cbn [w4 upload_meta set_upload_meta]. rewrite lookup_insert_eq. eauto. }
  cbn [loop_outcome]. split_and!; try done.
  - rewrite IH1. change (produced_at q w4) with (produced_at q w3).
    rewrite Hp3. by rewrite <- app_assoc.
  - eapply worker_frame_trans; [exact Hf3|].
    eapply worker_frame_trans; [|exact IH5]. by repeat split.
Qed.

Lemma process_body_unfold q uid team td w :
  process_body q uid team td w
  = let files := os_walk_files (fs w) td in
    let w1 :=
      set_upload_meta (<[uid := mkMeta (length files) 0 team]> (upload_meta w)) w in
    match upload_loop q uid team td (length files) 1 files
            (q_put q (ev_info (length files)) w1).2 with
    | (inl e, w3) => (inl e, w3)
    | (inr _, w3) => (inr tt, (q_put q ev_finished w3).2)
    end.
Proof.
  unfold process_body, bind, os_walk, gets, modify, q_put. cbn.
  by destruct (upload_loop _ _ _ _ _ _ _ _) as [[e|[]] w3].
Qed.

(** The [try] block: its events, its outcome, and what it leaves alone. *)
Lemma process_body_spec q uid team td w :
  q < length (channels w) →
  let files := os_walk_files (fs w) td in
  let answers := upsert_answers (fs w) (remote w) team td files in
  let out := process_body q uid team td w in
  produced_at q out.2 = produced_at q w ++ body_events team td files answers ∧
  out.1 = loop_outcome answers ∧
  fs out.2 = fs w ∧
  worker_frame q w out.2.
Proof.
  intros Hq. cbn zeta. rewrite process_body_unfold. cbn zeta.
  set (files := os_walk_files (fs w) td).
  set (w1 := set_upload_meta _ w).
  set (w2 := (q_put q (ev_info (length files)) w1).2).
  assert (Hp2 : produced_at q w2 = produced_at q w ++ [ev_info (length files)])
    by (by apply (produced_at_alter q _ w1)).
  assert (Hf2 : worker_frame q w w2).
  { eapply worker_frame_trans; [|apply (q_put_frame q (ev_info (length files)) w1)].
    by repeat split. }
  pose proof (upload_loop_spec q uid team td (length files) files 1 w2) as Hloop.
  cbn zeta in Hloop.
  change (fs w2) with (fs w) in Hloop. change (remote w2) with (remote w) in Hloop.
  destruct Hloop as (L1 & L2 & L3 & L4 & L5).
  { destruct Hf2 as (_&_&_&_&Hl&_). by rewrite Hl. }
  { cbn. rewrite lookup_insert_eq. eauto. }
  destruct (upload_loop q uid team td (length files) 1 files w2) as [[e|[]] w3] eqn:El;
    cbn [fst snd] in *.
  - unfold body_events, all_returned. rewrite <- L2.
    split_and!; try done.
    + rewrite L1, Hp2, app_nil_r. by rewrite <- app_assoc.
    + by eapply worker_frame_trans.
  - cbn [q_put modify fst snd].
    assert (Hq3 : q < length (channels w3)).
    { destruct L5 as (_&_&_&_&Hl&_). destruct Hf2 as (_&_&_&_&Hl2&_). by rewrite Hl, Hl2. }
    rewrite produced_at_alter by done.
    unfold body_events, all_returned. rewrite <- L2.
    split_and!; try done.
    + rewrite L1, Hp2. by rewrite <- !app_assoc.
    + eapply worker_frame_trans; [exact Hf2|].
      eapply worker_frame_trans; [exact L5|]. apply (q_put_frame q ev_finished w3).
Qed.

(** A run of [process_upload] whose queue is registered: what is on the
    queue afterwards, how the thread ends, and the world [wc] in which
    [closed] is put. *)
Lemma process_upload_unfold uid team td w q :
  upload_queues w !! uid = Some q →
  process_upload uid team td w
  = let out := process_body q uid team td w in
    (out.1, (q_put q ev_closed (set_fs (rmtree_fs (fs out.2) td) out.2)).2).
Proof.
  intros Hreg. unfold process_upload, bind at 1, gets. rewrite Hreg.
  unfold try_finally, process_cleanup, finally_block, exec_all, exec, bind, time_sleep,
    ret, shutil_rmtree, modify, q_put.
  by destruct (process_body q uid team td w) as [r w1].
Qed.

Lemma process_upload_spec uid team td w q :
  upload_queues w !! uid = Some q → q < length (channels w) →
  let files := os_walk_files (fs w) td in
  let answers := upsert_answers (fs w) (remote w) team td files in
  let out := process_upload uid team td w in
  ∃ wc,
    out.2 = (q_put q ev_closed wc).2 ∧
    produced_at q wc = produced_at q w ++ body_events team td files answers ∧
    fs wc = rmtree_fs (fs w) td ∧
    produced_at q out.2 = produced_at q w ++ worker_events team td files answers ∧
    out.1 = loop_outcome answers ∧
    fs out.2 = rmtree_fs (fs w) td ∧
    worker_frame q w out.2.
Proof.
  intros Hreg Hq. cbn zeta. rewrite (process_upload_unfold _ _ _ _ _ Hreg). cbn zeta.
  pose proof (process_body_spec q uid team td w Hq) as Hbody. cbn zeta in Hbody.
  destruct (process_body q uid team td w) as [r w1]. cbn [fst snd] in *.
  destruct Hbody as (B1 & B2 & B3 & B4).
  set (wc := set_fs _ w1). cbn [q_put modify fst snd].
  assert (Hqc : q < length (channels wc)).
  { destruct B4 as (_&_&_&_&Hl&_). cbn [wc channels set_fs]. by rewrite Hl. }
  exists wc. split_and!; try done.
  - cbn [wc fs set_fs]. by rewrite B3.
  - rewrite produced_at_alter by done. unfold worker_events.
    change (produced_at q wc) with (produced_at q w1). rewrite B1.
    by rewrite <- app_assoc.
  - cbn [wc fs set_fs set_channels]. by rewrite B3.
  - eapply worker_frame_trans; [exact B4|].
    eapply worker_frame_trans; [|apply (q_put_frame q ev_closed wc)].
    by repeat split.
Qed.

(** *** Routes *)

Lemma assoc_set_entry_eq c n entries : assoc c (set_entry c n entries) = Some n.
Proof.
  induction entries as [|[c' n'] rest IH]; cbn.
  - by rewrite String.eqb_refl.
  - destruct (String.eqb c c') eqn:E; cbn; rewrite ?String.eqb_refl, ?E; done.
Qed.

Lemma write_file_lookup p : ∀ n data n',
  write_file n p data = Some n' → fs_lookup n' p = Some (File data).
Proof.
  induction p as [|c p' IH]; intros n data n' H; [done|].
  cbn in H. destruct n as [|entries]; [done|].
  destruct p' as [|c2 p2].
  - destruct (assoc c entries) as [[|]|]; simplify_eq; cbn;
      by rewrite assoc_set_entry_eq.
  - destruct (assoc c entries) as [child|]; [|done].
    destruct (write_file child (c2 :: p2) data) as [child'|] eqn:Ew; [|done].
    simplify_eq. cbn [fs_lookup]. rewrite assoc_set_entry_eq. by eapply IH.
Qed.

(** C8, amended.  [register] never fails.  Called with an id that is
    already registered it makes a new, empty queue object and binds the
    id to it: the entry is replaced, the queue object it pointed to is
    neither reused nor changed. *)
Theorem register_replaces w upload_id q_old :
  upload_queues w !! upload_id = Some q_old → q_old < length (channels w) →
  let out := register upload_id w in
  let q_new := length (channels w) in
  out.1 = inr q_new ∧ q_new ≠ q_old ∧
  upload_queues out.2 !! upload_id = Some q_new ∧
  channels out.2 !! q_new = Some (mkChannel [] 0) ∧
  channels out.2 !! q_old = channels w !! q_old ∧
  (∀ other, other ≠ upload_id → upload_queues out.2 !! other = upload_queues w !! other).
Proof.
  intros Hold Hlt. cbn. split_and!.
  - done.
  - lia.
  - by rewrite lookup_insert_eq.
  - rewrite lookup_app_r by done. by rewrite Nat.sub_diag.
  - by rewrite lookup_app_l.
  - intros other Hne. by rewrite lookup_insert_ne.
Qed.

(** The [POST] branch of [/upload], stage by stage. *)
(** The staging part of [/upload], statement by statement. *)
Lemma stage_archive_unfold td file w :
  stage_archive td file w
  = let zip_path := td ++ ["sub.zip"] in
    match makedirs (fs w) td with
    | None => (inl (OSError td), w)
    | Some n1 =>
        match file with
        | None => (inl (KeyError "file"), set_fs n1 w)
        | Some data =>
            match write_file n1 zip_path data with
            | None => (inl (OSError zip_path), set_fs n1 w)
            | Some n2 =>
                match zip_members data with
                | None => (inl BadZipFile, set_fs n2 w)
                | Some members =>
                    match extractall members td (set_fs n2 w) with
                    | (inl e, w3) => (inl e, w3)
                    | (inr _, w3) => os_remove zip_path w3
                    end
                end
            end
        end
    end.
Proof.
  unfold stage_archive. cbn zeta.
  unfold bind at 1, os_makedirs.
  destruct (makedirs (fs w) td) as [n1|]; [|done].
  unfold bind at 1, lift. destruct file as [data|]; [|done].
  unfold bind at 1, file_save. cbn [fs set_fs].
  destruct (write_file n1 _ data) as [n2|] eqn:Ew; [|done].
  unfold bind at 1, zip_open, bind at 1, read_bytes. cbn [fs set_fs].
  rewrite (write_file_lookup _ _ _ _ Ew).
  destruct (zip_members data) as [members|]; [|done].
  unfold ret at 1. unfold bind at 1.
  replace (set_fs n2 (set_fs n1 w)) with (set_fs n2 w) by done.
  by destruct (extractall members _ _) as [[e|[]] w3].
Qed.

Lemma upload_post_unfold w sess team file uuid :
  sess_team sess = Some team →
  upload POST sess file uuid w
  = let temp_dir := staging_dir team uuid in
    let zip_path := temp_dir ++ ["sub.zip"] in
    match makedirs (fs w) temp_dir with
    | None => (inl (OSError temp_dir), w)
    | Some n1 =>
        match file with
        | None => (inl (KeyError "file"), set_fs n1 w)
        | Some data =>
            match write_file n1 zip_path data with
            | None => (inl (OSError zip_path), set_fs n1 w)
            | Some n2 =>
                match zip_members data with
                | None => (inl BadZipFile, set_fs n2 w)
                | Some members =>
                    match extractall members temp_dir (set_fs n2 w) with
                    | (inl e, w3) => (inl e, w3)
                    | (inr _, w3) =>
                        match os_remove zip_path w3 with
                        | (inl e, w4) => (inl e, w4)
                        | (inr _, w4) =>
                            (inr (Redirect "success" (Some uuid), no_session),
                             (thread_start uuid team temp_dir
                                (register uuid (locked team w4)).2).2)
                        end
                    end
                end
            end
        end
    end.
Proof.
  intros Hs. unfold upload. rewrite Hs. cbn zeta.
  unfold bind at 1. rewrite stage_archive_unfold. cbn zeta.
  destruct (makedirs (fs w) (staging_dir team uuid)) as [n1|]; [|done].
  destruct file as [data|]; [|done].
  destruct (write_file n1 _ data) as [n2|] eqn:Ew; [|done].
  destruct (zip_members data) as [members|]; [|done].
  destruct (extractall members _ _) as [[e|[]] w3]; [done|].
  destruct (os_remove _ w3) as [[e|[]] w4]; [done|].
  reflexivity.
Qed.

(** C6, amended.  When the uploaded bytes are not an archive, the
    [/upload] view raises: the request fails, no worker thread is started,
    no queue is made or registered, and the lock of the owner is neither
    set nor saved. *)
Theorem upload_corrupt_archive w sess team data uuid :
  sess_team sess = Some team → zip_members data = None →
  let out := upload POST sess (Some data) uuid w in
  (∃ e, out.1 = inl e) ∧
  threads out.2 = threads w ∧
  channels out.2 = channels w ∧
  upload_queues out.2 = upload_queues w ∧
  upload_meta out.2 = upload_meta w ∧
  upload_state out.2 = upload_state w ∧
  state_file out.2 = state_file w.
Proof.
  intros Hs Hz. cbn zeta. rewrite (upload_post_unfold _ _ _ _ _ Hs). cbn zeta.
  destruct (makedirs (fs w) (staging_dir team uuid)) as [n1|];
    [|split_and!; by eauto].
  destruct (write_file n1 _ data) as [n2|]; [rewrite Hz|]; split_and!; by eauto.
Qed.

(** What the failed request leaves behind: when the staging directory
    could be made and the archive saved, both are on disk afterwards. *)
Lemma upload_corrupt_archive_leftover w sess team data uuid :
  sess_team sess = Some team → zip_members data = None →
  let out := upload POST sess (Some data) uuid w in
  out.1 = inl BadZipFile →
  fs_lookup (fs out.2) (staging_dir team uuid ++ ["sub.zip"]) = Some (File data).
Proof.
  intros Hs Hz. cbn zeta. rewrite (upload_post_unfold _ _ _ _ _ Hs). cbn zeta.
  destruct (makedirs (fs w) (staging_dir team uuid)) as [n1|]; [|cbn; by intros ?].
  destruct (write_file n1 _ data) as [n2|] eqn:Ew; [|cbn; by intros ?].
  rewrite Hz. intros _. by eapply write_file_lookup.
Qed.

(** *** The running server *)

Lemma reachable_trans w0 w1 w2 : reachable w0 w1 → reachable w1 w2 → reachable w0 w2.
Proof.
  intros H01 H12. induction H12 as [|w w' _ IH Hs]; [done|].
  by eapply reach_step.
Qed.

Lemma run_reachable acts : ∀ w w', run acts w = Some w' → reachable w w'.
Proof.
  induction acts as [|a rest IH]; intros w w' H; cbn in H.
  - simplify_eq. constructor.
  - destruct (perform a w) as [w1|] eqn:Ea; [|done].
    eapply reachable_trans; [|by apply IH].
    eapply reach_step; [constructor|]. by econstructor.
Qed.

(** The views that only read. *)
Lemma verify_world m t p sess w : after (verify m t p sess) w = w.
Proof.
  unfold after, verify. destruct m; [done|].
  destruct t as [team|]; [|done]. cbn.
  destruct (teams !! team) as [hash|]; [|done].
  destruct (negb (String.eqb hash "") && checkpw (default "" p) hash); [|done].
  destruct (String.eqb team "VEGAVATH ADS"); [done|].
  unfold bind, gets. by destruct (has_submitted w team).
Qed.

Lemma events_world uid sess w : after (events uid sess) w = w.
Proof. unfold after, events, bind, gets. by destruct (upload_queues w !! uid). Qed.

Lemma admin_panel_world sess w : after (admin_panel sess) w = w.
Proof. unfold after, admin_panel. by destruct (sess_admin sess). Qed.

(** Extraction and removal change the working directory only. *)
Lemma set_fs_id w : set_fs (fs w) w = w.
Proof. by destruct w. Qed.

Lemma extractall_frame members dest : ∀ w,
  ∃ n, (extractall members dest w).2 = set_fs n w.
Proof.
  induction members as [|[mp data] rest IH]; intros w.
  { exists (fs w). by rewrite set_fs_id. }
  cbn [extractall]. unfold bind at 1, os_makedirs.
  destruct (makedirs (fs w) _) as [n1|]; [|exists (fs w); by rewrite set_fs_id].
  unfold bind at 1, file_save. cbn [fs set_fs].
  destruct (write_file n1 _ data) as [n2|]; [|by exists n1].
  destruct (IH (set_fs n2 (set_fs n1 w))) as [n Hn]. exists n. exact Hn.
Qed.

Lemma os_remove_frame p w : ∃ n, (os_remove p w).2 = set_fs n w.
Proof.
  unfold os_remove. destruct (can_remove p); [|exists (fs w); by rewrite set_fs_id].
  destruct (remove_file (fs w) p) as [n|]; [by exists n|].
  exists (fs w). by rewrite set_fs_id.
Qed.

(** How [/upload] can change the world: the working directory only, or
    else a lock, a new registered queue and a started thread as well. *)
Lemma upload_world m sess file uuid w :
  (∃ n, after (upload m sess file uuid) w = set_fs n w) ∨
  (∃ team n,
     sess_team sess = Some team ∧ m = POST ∧
     after (upload m sess file uuid) w
     = (thread_start uuid team (staging_dir team uuid)
          (register uuid (locked team (set_fs n w))).2).2).
Proof.
  unfold after. destruct (sess_team sess) as [team|] eqn:Hs; last first.
  { left. exists (fs w). unfold upload. rewrite Hs. cbn. by rewrite set_fs_id. }
  destruct m.
  { left. exists (fs w). unfold upload. rewrite Hs. cbn. by rewrite set_fs_id. }
  rewrite (upload_post_unfold _ _ _ _ _ Hs). cbn zeta.
  destruct (makedirs (fs w) _) as [n1|]; [|left; exists (fs w); by rewrite set_fs_id].
  destruct file as [data|]; [|left; by exists n1].
  destruct (write_file n1 _ data) as [n2|]; [|left; by exists n1].
  destruct (zip_members data) as [members|]; [|left; by exists n2].
  destruct (extractall_frame members (staging_dir team uuid) (set_fs n2 w)) as [n3 H3].
  destruct (extractall members _ _) as [[e|[]] w3]; cbn [snd] in H3; subst w3;
    [left; by exists n3|].
  destruct (os_remove_frame (staging_dir team uuid ++ ["sub.zip"]) (set_fs n3 (set_fs n2 w)))
    as [n4 H4].
  destruct (os_remove _ _) as [[e|[]] w4]; cbn [snd] in H4; subst w4;
    [left; by exists n4|].
  right. by exists team, n4.
Qed.

Lemma loop_events_not_closed team td total files : ∀ i answers,
  Forall (λ e : event, e.1 ≠ "closed") (loop_events team td total i files answers).
Proof.
  induction files as [|f rest IH]; intros i [|a answers]; cbn; try by constructor.
  constructor; [done|]. destruct a as [e|[[[] st] resp]]; [by constructor|..];
    (constructor; [done|apply IH]).
Qed.

Lemma body_events_not_closed team td files answers :
  Forall (λ e : event, e.1 ≠ "closed") (body_events team td files answers).
Proof.
  unfold body_events. constructor; [done|].
  apply Forall_app. split; [apply loop_events_not_closed|].
  destruct (all_returned answers); by repeat constructor.
Qed.

Lemma worker_events_closed_last team td files answers :
  closed_last (worker_events team td files answers).
Proof.
  right. eexists. split; [reflexivity|]. apply body_events_not_closed.
Qed.

Lemma server_inv_boot saved cwd r : server_inv (boot saved cwd r).
Proof.
  unfold server_inv, boot. cbn. split_and!; try done.
  - intros t Ht. by apply elem_of_nil in Ht.
  - constructor.
Qed.

Lemma reset_team_world team sess w :
  ∃ us sf, after (reset_team team sess) w = set_state_file sf (set_upload_state us w).
Proof.
  unfold after, reset_team. destruct (sess_admin sess); cbn.
  - by eexists _, _.
  - exists (upload_state w), (state_file w). by destruct w.
Qed.

Lemma server_inv_launch uuid team td w :
  server_inv w → upload_queues w !! uuid = None →
  server_inv (thread_start uuid team td (register uuid (locked team w)).2).2.
Proof.
  intros (I1 & I2 & I3 & I4 & I5) Hfresh.
  unfold server_inv. cbn. split_and!.
  - intros uid q. rewrite lookup_insert. rewrite length_app. cbn.
    case_decide; intros Hq; simplify_eq; [lia|]. apply I1 in Hq. lia.
  - intros uid1 uid2 q. rewrite !lookup_insert.
    repeat case_decide; intros Ha Hb; simplify_eq; try done.
    + apply I1 in Hb. lia.
    + apply I1 in Ha. lia.
    + by eapply I2.
  - intros t Ht. apply elem_of_app in Ht as [Ht|Ht].
    + destruct (I3 t Ht) as (q & Hq & Hp). exists q.
      assert (uuid ≠ t.1.1) by (intros ->; congruence).
      rewrite lookup_insert_ne by done. split; [done|].
      unfold produced_at in *. cbn. rewrite lookup_app_l; [done|by apply (I1 t.1.1)].
    + apply list_elem_of_singleton in Ht as ->. cbn.
      exists (length (channels w)). rewrite lookup_insert_eq. split; [done|].
      unfold produced_at. cbn. rewrite lookup_app_r by done.
      by rewrite Nat.sub_diag.
  - rewrite fmap_app. cbn. apply NoDup_app. split_and!; [done| |apply NoDup_singleton].
    intros uid Hin Hin2. apply list_elem_of_singleton in Hin2 as ->.
    apply list_elem_of_fmap in Hin as (t & -> & Ht).
    destruct (I3 t Ht) as (q & Hq & _). congruence.
  - intros q c Hc. apply lookup_app_Some in Hc as [Hc|[_ Hc]]; [by apply (I5 q)|].
    destruct (q - length (channels w)); [|done]. cbn in Hc. simplify_eq. cbn.
    split; [by left|done].
Qed.

Lemma server_inv_upload m sess file uuid w :
  server_inv w → (m = POST → upload_queues w !! uuid = None) →
  server_inv (after (upload m sess file uuid) w).
Proof.
  intros Hinv Hfresh.
  destruct (upload_world m sess file uuid w) as [[n ->]|(team & n & _ & Hm & ->)]; [done|].
  apply (server_inv_launch uuid team _ (set_fs n w)); [done|]. by apply Hfresh.
Qed.

Lemma server_inv_stream_next q w r :
  server_inv w → stream_next q w = Some r → server_inv r.2.
Proof.
  intros (I1 & I2 & I3 & I4 & I5) H. unfold stream_next, q_get in H.
  destruct (channels w !! q) as [c|] eqn:Ec; [|done]. cbn in H.
  destruct (produced c !! consumed c) as [ev|] eqn:Eev; [|done]. cbn in H.
  simplify_eq. cbn [snd].
  pose proof (lookup_lt_Some _ _ _ Ec) as Hlt.
  unfold server_inv. cbn. split_and!; try done.
  - intros uid q'. rewrite length_insert. apply I1.
  - intros t Ht. destruct (I3 t Ht) as (q' & Hq' & Hp). exists q'. split; [done|].
    unfold produced_at in *. cbn.
    destruct (decide (q = q')) as [<-|Hne].
    + rewrite list_lookup_insert_eq by done. cbn. by rewrite Ec in Hp.
    + by rewrite list_lookup_insert_ne.
  - intros q' c'. destruct (decide (q = q')) as [<-|Hne].
    + rewrite list_lookup_insert_eq by done. intros ?; simplify_eq. cbn.
      destruct (I5 q c Ec) as [Hcl _]. split; [done|].
      by apply lookup_lt_Some in Eev.
    + rewrite list_lookup_insert_ne by done. apply (I5 q').
Qed.

Lemma produced_at_lookup q w c : channels w !! q = Some c → produced_at q w = produced c.
Proof. unfold produced_at. by intros ->. Qed.

Lemma server_inv_run_worker i w w' :
  server_inv w → run_worker i w = Some w' → server_inv w'.
Proof.
  intros (I1 & I2 & I3 & I4 & I5) H. unfold run_worker in H.
  destruct (threads w !! i) as [[[uid team] td]|] eqn:Ei; [|done]. simplify_eq.
  destruct (I3 (uid, team, td)) as (q & Hq & Hp); [by eapply list_elem_of_lookup_2|].
  cbn in Hq. pose proof (I1 _ _ Hq) as Hlt.
  set (w0 := set_threads (delete i (threads w)) w).
  pose proof (process_upload_spec uid team td w0 q Hq Hlt) as Hspec. cbn zeta in Hspec.
  destruct Hspec as (wc & _ & _ & _ & Hprod & _ & _ & Hframe).
  change (produced_at q w0) with (produced_at q w) in Hprod. rewrite Hp in Hprod.
  cbn [app] in Hprod. unfold after.
  set (w' := (process_upload uid team td w0).2) in *.
  destruct Hframe as (F1 & F2 & F3 & F4 & F5 & F6 & F7).
  change (upload_queues w0) with (upload_queues w) in F1.
  change (channels w0) with (channels w) in F5, F6, F7.
  change (threads w0) with (delete i (threads w)) in F2.
  pose proof (take_drop_middle _ _ _ Ei) as Hmid.
  rewrite delete_take_drop in F2.
  rewrite <- Hmid, fmap_app, fmap_cons in I4.
  apply NoDup_app in I4 as (N1 & N2 & N3). apply NoDup_cons in N3 as (N3 & N4).
  unfold server_inv. rewrite F1, F2, F5. split_and!; try done.
  - intros t Ht.
    assert (t ∈ threads w) as Htw.
    { rewrite <- Hmid. apply elem_of_app in Ht as [?|?];
        apply elem_of_app; [by left|right; by apply elem_of_cons; right]. }
    assert (t.1.1 ≠ uid) as Hne.
    { intros Heq. apply elem_of_app in Ht as [Ht|Ht].
      - apply (N2 uid); [|by left]. rewrite <- Heq.
        by apply (list_elem_of_fmap_2 (λ t : string * string * path, t.1.1)).
      - apply N3. cbn. rewrite <- Heq.
        by apply (list_elem_of_fmap_2 (λ t : string * string * path, t.1.1)). }
    destruct (I3 t Htw) as (q' & Hq' & Hp'). exists q'. split; [done|].
    assert (q' ≠ q) as Hqne by (intros ->; apply Hne; by eapply I2).
    unfold produced_at in *. by rewrite F6.
  - rewrite fmap_app. apply NoDup_app. split_and!; try done.
    intros x Hx1 Hx2. apply (N2 x Hx1). by right.
  - intros q' c' Hc'. destruct (decide (q' = q)) as [->|Hne].
    + rewrite (produced_at_lookup _ _ _ Hc') in Hprod. rewrite Hprod.
      split; [apply worker_events_closed_last|].
      destruct (lookup_lt_is_Some_2 _ _ Hlt) as [c Hc].
      rewrite Hc', Hc in F7. cbn in F7. simplify_eq. rewrite F7.
      destruct (I5 q c Hc) as [_ Hle]. rewrite (produced_at_lookup _ _ _ Hc) in Hp.
      rewrite Hp in Hle. cbn in Hle. lia.
    + rewrite F6 in Hc' by done. by apply (I5 q').
Qed.

Lemma server_inv_step w w' : server_inv w → step w w' → server_inv w'.
Proof.
  intros Hinv [a w'' Ha]. destruct a; cbn in Ha.
  - simplify_eq. by rewrite verify_world.
  - destruct m.
    + simplify_eq. by apply server_inv_upload.
    + destruct (upload_queues w !! uuid) eqn:Eu; [done|]. simplify_eq.
      by apply server_inv_upload.
  - by simplify_eq.
  - simplify_eq. by rewrite events_world.
  - simplify_eq. by rewrite admin_panel_world.
  - simplify_eq. by destruct (reset_team_world team sess w) as (us & sf & ->).
  - destruct (stream_next q w) as [r|] eqn:Es; [|done]. cbn in Ha. simplify_eq.
    by eapply server_inv_stream_next.
  - by eapply server_inv_run_worker.
Qed.

Lemma server_inv_reachable w0 w : server_inv w0 → reachable w0 w → server_inv w.
Proof.
  intros H0 Hr. induction Hr as [|w w' _ IH Hs]; [done|].
  by eapply server_inv_step.
Qed.



(** No step takes an entry out of [upload_queues] or binds it anew. *)
Lemma registry_stable_step w w' uid q :
  server_inv w → step w w' →
  upload_queues w !! uid = Some q → upload_queues w' !! uid = Some q.
Proof.
  intros Hinv [a w'' Ha] Hreg. destruct a; cbn in Ha.
  - simplify_eq. by rewrite verify_world.
  - destruct (upload_world m sess file uuid w) as [[n Hw]|(team & n & _ & -> & Hw)].
    + destruct m; [|destruct (upload_queues w !! uuid)]; simplify_eq; by rewrite Hw.
    + destruct (upload_queues w !! uuid) eqn:Eu; [done|]. simplify_eq. rewrite Hw.
      cbn. rewrite lookup_insert_ne; [done|]. intros ->. congruence.
  - by simplify_eq.
  - simplify_eq. by rewrite events_world.
  - simplify_eq. by rewrite admin_panel_world.
  - simplify_eq. by destruct (reset_team_world team sess w) as (us & sf & ->).
  - unfold stream_next, q_get in Ha.
    destruct (channels w !! q0) as [c|]; [|done]. cbn in Ha.
    destruct (produced c !! consumed c) as [ev|]; [|done]. cbn in Ha. by simplify_eq.
  - destruct Hinv as (I1 & I2 & I3 & I4 & I5). unfold run_worker in Ha.
    destruct (threads w !! i) as [[[uid' team] td]|] eqn:Ei; [|done]. simplify_eq.
    destruct (I3 (uid', team, td)) as (q0 & Hq0 & Hp0); [by eapply list_elem_of_lookup_2|].
    cbn in Hq0. pose proof (I1 _ _ Hq0) as Hlt.
    pose proof (process_upload_spec uid' team td
                  (set_threads (delete i (threads w)) w) q0 Hq0 Hlt) as Hspec.
    cbn zeta in Hspec. destruct Hspec as (wc & _ & _ & _ & _ & _ & _ & Hframe).
    destruct Hframe as (F1 & _). unfold after. by rewrite F1.
Qed.

Lemma registry_stable w w' uid q :
  server_inv w → reachable w w' →
  upload_queues w !! uid = Some q → upload_queues w' !! uid = Some q.
Proof.
  intros Hinv Hr Hreg. induction Hr as [|w1 w2 Hr IH Hs]; [done|].
  eapply registry_stable_step; [|done|done]. by eapply server_inv_reachable.
Qed.

(** A queue from which everything was taken, [closed] included, stays as
    it is. *)
Lemma drained_stable_step q c w w' :
  server_inv w → step w w' →
  channels w !! q = Some c → produced c ≠ [] → consumed c = length (produced c) →
  channels w' !! q = Some c.
Proof.
  intros Hinv [a w'' Ha] Hc Hne Hall. destruct a; cbn in Ha.
  - simplify_eq. by rewrite verify_world.
  - assert (w'' = after (upload m sess file uuid) w) as ->.
    { destruct m; [by simplify_eq|]. destruct (upload_queues w !! uuid); by simplify_eq. }
    destruct (upload_world m sess file uuid w) as [[n ->]|(team & n & _ & _ & ->)]; [done|].
    cbn. by apply lookup_app_l_Some.
  - by simplify_eq.
  - simplify_eq. by rewrite events_world.
  - simplify_eq. by rewrite admin_panel_world.
  - simplify_eq. by destruct (reset_team_world team sess w) as (us & sf & ->).
  - unfold stream_next, q_get in Ha.
    destruct (channels w !! q0) as [c0|] eqn:Ec; [|done]. cbn in Ha.
    destruct (produced c0 !! consumed c0) as [ev|] eqn:Eev; [|done]. cbn in Ha.
    simplify_eq. cbn. destruct (decide (q0 = q)) as [->|Hq].
    + simplify_eq. apply lookup_lt_Some in Eev. lia.
    + by rewrite list_lookup_insert_ne.
  - destruct Hinv as (I1 & I2 & I3 & I4 & I5). unfold run_worker in Ha.
    destruct (threads w !! i) as [[[uid team] td]|] eqn:Ei; [|done]. simplify_eq.
    destruct (I3 (uid, team, td)) as (q0 & Hq0 & Hp0); [by eapply list_elem_of_lookup_2|].
    cbn in Hq0. pose proof (I1 _ _ Hq0) as Hlt.
    pose proof (process_upload_spec uid team td
                  (set_threads (delete i (threads w)) w) q0 Hq0 Hlt) as Hspec.
    cbn zeta in Hspec. destruct Hspec as (wc & _ & _ & _ & _ & _ & _ & Hframe).
    destruct Hframe as (_ & _ & _ & _ & _ & F6 & _).
    assert (q ≠ q0) as Hqne.
    { intros ->. rewrite (produced_at_lookup _ _ _ Hc) in Hp0. done. }
    unfold after. by rewrite F6.
Qed.

Lemma drained_stable q c w w' :
  server_inv w → reachable w w' →
  channels w !! q = Some c → produced c ≠ [] → consumed c = length (produced c) →
  channels w' !! q = Some c.
Proof.
  intros Hinv Hr Hc Hne Hall. induction Hr as [|w1 w2 Hr IH Hs]; [done|].
  eapply drained_stable_step; [|done|done..]. by eapply server_inv_reachable.
Qed.

Lemma closed_last_position l i :
  closed_last l → l !! i = Some ev_closed → l ≠ [] ∧ S i = length l.
Proof.
  intros [->|(evs & -> & Hevs)] Hi; [done|].
  split; [by destruct evs|]. rewrite length_app. cbn.
  apply lookup_app_Some in Hi as [Hi|[Hge Hi]].
  - rewrite Forall_lookup in Hevs. by apply Hevs in Hi.
  - destruct (i - length evs) eqn:E; [lia|done].
Qed.




(** C10.  In every world the server reaches, [upload_queues] keeps each of
    its entries in all later worlds: no step removes an id or binds it to
    another queue.  So when [closed] has been taken from the queue of a
    registered id, a later request for its stream is still answered with
    the stream of that queue and not with 404, and [q.get()] in that
    stream blocks, in that world and in every world after it. *)
Theorem registry_never_shrinks saved cwd r w w' :
  reachable (boot saved cwd r) w → reachable w w' →
  (∀ uid q, upload_queues w !! uid = Some q → upload_queues w' !! uid = Some q) ∧
  (∀ uid q c i sess,
     upload_queues w !! uid = Some q → channels w !! q = Some c →
     produced c !! i = Some ev_closed → i < consumed c →
     (events uid sess w').1 = inr (EventStream q, sess) ∧
     stream_next q w' = None).
Proof.
  intros Hr Hr'.
  pose proof (server_inv_reachable _ _ (server_inv_boot saved cwd r) Hr) as Hinv.
  split; [intros uid q; by apply registry_stable|].
  intros uid q c i sess Hreg Hc Hi Hlt.
  destruct Hinv as (I1 & I2 & I3 & I4 & I5). destruct (I5 q c Hc) as [Hcl Hle].
  destruct (closed_last_position _ _ Hcl Hi) as [Hne Hlen].
  assert (consumed c = length (produced c)) as Hall by lia.
  assert (server_inv w) as Hinv by done.
  pose proof (drained_stable q c w w' Hinv Hr' Hc Hne Hall) as Hc'.
  pose proof (registry_stable w w' uid q Hinv Hr' Hreg) as Hreg'.
  split.
  - unfold events, bind, gets. by rewrite Hreg'.
  - unfold stream_next, q_get. rewrite Hc'. cbn.
    rewrite (lookup_ge_None_2 (produced c) (consumed c)) by lia. done.
Qed.

(** *** The walk and the clean-up *)

(** Induction over a tree, with the property at hand for every entry of a
    directory. *)
Fixpoint node_ind' (P : node → Prop) (HF : ∀ d, P (File d))
    (HD : ∀ es, Forall (λ e : string * node, P e.2) es → P (Dir es)) (n : node) : P n :=
  match n with
  | File d => HF d
  | Dir es =>
      HD es
        ((fix each (es : list (string * node)) : Forall (λ e : string * node, P e.2) es :=
            match es with
            | [] => @List.Forall_nil _ (λ e : string * node, P e.2)
            | (name, child) :: es' =>
                @List.Forall_cons _ (λ e : string * node, P e.2) (name, child) es'
                  (node_ind' P HF HD child) (each es')
            end) es)
  end.

(** The order of the walk: the files of the directory in listing order,
    then what the walk finds below each entry, in listing order. *)
Lemma walk_Dir root es :
  walk root (Dir es)
  = map (λ name, root ++ [name]) (file_names es) ++
    concat (map (λ e : string * node, walk (root ++ [e.1]) e.2) es).
Proof.
  cbn [walk]. f_equal.
  induction es as [|[name child] es IH]; [done|].
  cbn [map concat fst snd]. rewrite <- IH. by destruct child.
Qed.

Lemma file_names_elem c es :
  c ∈ file_names es ↔ ∃ d, (c, File d) ∈ es.
Proof.
  unfold file_names. split.
  - intros H. apply (list_elem_of_fmap_1 fst) in H as ([c' n] & -> & H).
    apply list_elem_of_filter in H as [Hf H]. cbn in *.
    destruct n as [d|]; [|done]. by exists d.
  - intros [d H]. apply (list_elem_of_fmap_2' fst _ (c, File d)); [|done].
    by apply list_elem_of_filter.
Qed.

Lemma elem_of_concat {A} (x : A) (ls : list (list A)) :
  x ∈ concat ls → ∃ l, x ∈ l ∧ l ∈ ls.
Proof.
  induction ls as [|l ls IH]; cbn; [by intros ?%elem_of_nil|].
  intros [H|H]%elem_of_app.
  - exists l. split; [done|by left].
  - destruct (IH H) as (l' & ? & ?). exists l'. split; [done|by right].
Qed.

(** Every path of the walk lies strictly below its root. *)
Lemma walk_below n : ∀ root p, p ∈ walk root n → ∃ rel, p = root ++ rel ∧ rel ≠ [].
Proof.
  induction n as [d|es IH] using node_ind'; intros root p Hp.
  { by apply elem_of_nil in Hp. }
  rewrite walk_Dir in Hp. apply elem_of_app in Hp as [Hp|Hp].
  - apply (list_elem_of_fmap_1 (λ name, root ++ [name])) in Hp as (name & -> & _).
    by exists [name].
  - apply elem_of_concat in Hp as (l & Hp & Hl).
    apply (list_elem_of_fmap_1 (λ e : string * node, walk (root ++ [e.1]) e.2)) in Hl
      as ([name child] & -> & He).
    rewrite Forall_forall in IH. destruct (IH _ He _ _ Hp) as (rel & -> & Hrel).
    exists (name :: rel). by rewrite <- app_assoc.
Qed.

(** A path one level below the root is in the walk only as a file entry. *)
Lemma walk_top_level root es c :
  root ++ [c] ∈ walk root (Dir es) → ∃ d, (c, File d) ∈ es.
Proof.
  rewrite walk_Dir. intros Hp. apply elem_of_app in Hp as [Hp|Hp].
  - apply (list_elem_of_fmap_1 (λ name, root ++ [name])) in Hp as (name & Heq & Hn).
    apply app_inv_head in Heq. simplify_eq. by apply file_names_elem.
  - apply elem_of_concat in Hp as (l & Hp & Hl).
    apply (list_elem_of_fmap_1 (λ e : string * node, walk (root ++ [e.1]) e.2)) in Hl
      as ([name child] & -> & He).
    apply walk_below in Hp as (rel & Heq & Hrel). cbn in Heq.
    rewrite <- app_assoc in Heq. apply app_inv_head in Heq.
    destruct rel; simplify_eq.
Qed.

Lemma del_entry_elem c n es : (c, n) ∉ del_entry c es.
Proof. unfold del_entry. intros H. by apply list_elem_of_filter in H as [? _]. Qed.


(** After [os.remove(p ++ [c])], the directory [p] has no entry [c]. *)
Lemma remove_file_lookup p c : ∀ n n',
  remove_file n (p ++ [c]) = Some n' →
  ∃ es, fs_lookup n' p = Some (Dir (del_entry c es)).
Proof.
  induction p as [|c0 p IH]; intros n n' H.
  - cbn in H. destruct n as [|es]; [done|].
    destruct (assoc c es) as [[d|]|]; simplify_eq. by exists es.
  - cbn [app remove_file] in H. destruct n as [|es]; [done|].
    destruct (assoc c0 es) as [child|]; [|done].
    destruct (p ++ [c]) eqn:Ep; [by destruct p|]. rewrite <- Ep in H.
    destruct (remove_file child (p ++ [c])) as [child'|] eqn:Er; [|done].
    simplify_eq. cbn [fs_lookup]. rewrite assoc_set_entry_eq.
    rewrite Ep in Er. exact (IH _ _ Er).
Qed.

(** C7, amended.  After an accepted upload the staging directory exists,
    and the file list that the worker builds from it is one top-down
    walk: the files of the staging directory itself in the order the
    directory lists them, then, entry by entry in that same order, the
    files found below each sub-directory.  Nothing is sorted.  The
    container file [sub.zip] has been removed before the worker is started
    and is not in the list. *)
Theorem file_list_follows_listing w sess team file uuid r w' :
  sess_team sess = Some team →
  upload POST sess file uuid w = (inr r, w') →
  let td := staging_dir team uuid in
  ∃ es,
    fs_lookup (fs w') td = Some (Dir es) ∧
    os_walk_files (fs w') td
    = map (λ name, td ++ [name]) (file_names es) ++
      concat (map (λ e : string * node, walk (td ++ [e.1]) e.2) es) ∧
    td ++ ["sub.zip"] ∉ os_walk_files (fs w') td.
Proof.
  intros Hs Hup. cbn zeta. rewrite (upload_post_unfold _ _ _ _ _ Hs) in Hup.
  cbn zeta in Hup.
  destruct (makedirs (fs w) _) as [n1|]; [|done].
  destruct file as [data|]; [|done].
  destruct (write_file n1 _ data) as [n2|]; [|done].
  destruct (zip_members data) as [members|]; [|done].
  destruct (extractall members _ _) as [[e|[]] w3]; [done|].
  unfold os_remove in Hup. destruct (can_remove _); [|done].
  destruct (remove_file (fs w3) _) as [n4|] eqn:Erm; [|done].
  simplify_eq. cbn [snd fs thread_start register bind queue_new modify ret locked
                    set_threads set_upload_queues set_channels set_state_file
                    set_upload_state set_fs].
  destruct (remove_file_lookup _ _ _ _ Erm) as [es0 Hes].
  exists (del_entry "sub.zip" es0). unfold os_walk_files. rewrite Hes.
  split_and!; [done|apply walk_Dir|].
  intros Hin. apply walk_top_level in Hin as [d Hd]. by apply del_entry_elem in Hd.
Qed.




(** *** The event sequence *)









(** *** The lock *)

(** An accepted upload has set the lock of the team and saved it before
    the queue is registered and the worker thread is started. *)
Lemma upload_locks_before_launch w sess team file uuid r w' :
  sess_team sess = Some team →
  upload POST sess file uuid w = (inr r, w') →
  ∃ w4,
    has_submitted (locked team w4) team = true ∧
    state_file (locked team w4) = Some (upload_state (locked team w4)) ∧
    threads (locked team w4) = threads w ∧
    upload_queues (locked team w4) = upload_queues w ∧
    w' = (thread_start uuid team (staging_dir team uuid)
            (register uuid (locked team w4)).2).2.
Proof.
  intros Hs Hup. rewrite (upload_post_unfold _ _ _ _ _ Hs) in Hup. cbn zeta in Hup.
  destruct (makedirs (fs w) _) as [n1|]; [|done].
  destruct file as [data|]; [|done].
  destruct (write_file n1 _ data) as [n2|]; [|done].
  destruct (zip_members data) as [members|]; [|done].
  destruct (extractall_frame members (staging_dir team uuid) (set_fs n2 w)) as [n3 H3].
  destruct (extractall members _ _) as [[e|[]] w3]; [done|]. cbn [snd] in H3. subst w3.
  destruct (os_remove_frame (staging_dir team uuid ++ ["sub.zip"]) (set_fs n3 (set_fs n2 w)))
    as [n4 H4].
  destruct (os_remove _ _) as [[e|[]] w4]; [done|]. cbn [snd] in H4. subst w4.
  simplify_eq. eexists. split_and!; [| | | |reflexivity]; try done.
  unfold has_submitted. cbn. by rewrite lookup_insert_eq.
Qed.

(** [verify] turns away a team whose lock is set: no session, and the
    world is as before. *)
Lemma verify_rejects_locked w team pin sess hash :
  teams !! team = Some hash →
  negb (String.eqb hash "") && checkpw pin hash = true →
  String.eqb team "VEGAVATH ADS" = false →
  has_submitted w team = true →
  verify POST (Some team) (Some pin) sess w
  = (inr (Rendered "verify.html"
            (Some "⚠️ Your team already submitted. Contact admin to unlock."), sess), w).
Proof.
  intros Ht Hpw Hadm Hsub. unfold verify. cbn. rewrite Ht, Hpw, Hadm.
  unfold bind, gets. by rewrite Hsub.
Qed.

(** ** Further properties *)

(** *** Remote paths *)

Lemma common_prefix_len_app start rel :
  common_prefix_len start (start ++ rel) = length start.
Proof.
  induction start as [|c start IH]; [by destruct rel|].
  cbn. by rewrite String.eqb_refl, IH.
Qed.

Lemma relpath_below start rel :
  relpath (start ++ rel) start
  = match rel with [] => "." | _ :: _ => String.concat "/" rel end.
Proof.
  unfold relpath. rewrite common_prefix_len_app, Nat.sub_diag, drop_app_length.
  cbn. by destruct rel.
Qed.

Lemma append_cons a s r : String a s +:+ r = String a (s +:+ r).
Proof. reflexivity. Qed.

Lemma length_append s1 s2 :
  String.length (s1 +:+ s2) = String.length s1 + String.length s2.
Proof.
  induction s1 as [|a s1 IH]; [done|]. rewrite append_cons. cbn. by rewrite IH.
Qed.

Lemma append_inj s1 : ∀ s2 r1 r2,
  String.length r1 = String.length r2 → s1 +:+ r1 = s2 +:+ r2 → s1 = s2 ∧ r1 = r2.
Proof.
  induction s1 as [|a s1 IH]; intros [|b s2] r1 r2 Hlen Heq.
  - done.
  - change (r1 = String b s2 +:+ r2) in Heq. subst r1.
    rewrite length_append in Hlen. cbn in Hlen. lia.
  - change (String a s1 +:+ r1 = r2) in Heq. subst r2.
    rewrite length_append in Hlen. cbn in Hlen. lia.
  - rewrite !append_cons in Heq. injection Heq as -> Heq.
    destruct (IH _ _ _ Hlen Heq) as [-> ->]. done.
Qed.

Lemma contains_append a s1 s2 :
  contains a (s1 +:+ s2) = contains a s1 || contains a s2.
Proof.
  induction s1 as [|c s1 IH]; [done|].
  rewrite append_cons. cbn [contains]. by rewrite IH, orb_assoc.
Qed.

(** A text without the separator is one component. *)
Lemma split_at_absent sep s : contains sep s = false → split_at sep s = [s].
Proof.
  induction s as [|c s IH]; [done|]. cbn [contains split_at].
  intros [Hc Hs]%orb_false_elim. rewrite Hc, (IH Hs). done.
Qed.

(** Cutting after a first component without the separator. *)
Lemma split_at_append sep s1 s2 :
  contains sep s1 = false →
  split_at sep (s1 +:+ String sep s2) = s1 :: split_at sep s2.
Proof.
  induction s1 as [|c s1 IH]; intros H.
  - change ("" +:+ String sep s2) with (String sep s2). cbn [split_at].
    by rewrite Ascii.eqb_refl.
  - cbn [contains] in H. apply orb_false_elim in H as [Hc Hs].
    rewrite append_cons. cbn [split_at]. by rewrite Hc, (IH Hs).
Qed.

Lemma replace_char_id a b s : contains a s = false → replace_char a b s = s.
Proof.
  induction s as [|c s IH]; [done|]. cbn [contains replace_char].
  intros [Hc Hs]%orb_false_elim. by rewrite Hc, (IH Hs).
Qed.

Lemma contains_concat a sep l :
  contains a sep = false → Forall (λ c, contains a c = false) l →
  contains a (String.concat sep l) = false.
Proof.
  intros Hsep. induction 1 as [|c l Hc Hl IH]; [done|].
  destruct l as [|c' l]; [done|].
  change (String.concat sep (c :: c' :: l)) with (c +:+ sep +:+ String.concat sep (c' :: l)).
  by rewrite !contains_append, Hc, Hsep, IH.
Qed.

(** Joining names that hold no ["/"] and cutting the text again gives the
    names back. *)
Lemma split_at_concat l :
  l ≠ [] → Forall (λ c, contains slash c = false) l →
  split_at slash (String.concat "/" l) = l.
Proof.
  intros Hne Hall. induction Hall as [|c l Hc Hl IH]; [done|].
  destruct l as [|c' l]; [by apply split_at_absent|].
  change (String.concat "/" (c :: c' :: l))
    with (c +:+ String slash (String.concat "/" (c' :: l))).
  rewrite split_at_append by done. by rewrite IH.
Qed.

(** X1.  For a path at or below [start], both made of plain names (not
    empty, not ["."] or [".."], without ["/"]), [safe_relpath] gives
    ["."] for [start] itself and otherwise the names below [start]
    joined by ["/"], with every backslash inside a name turned into
    ["/"].  When the names below [start] hold no backslash, cutting the
    result at ["/"] gives exactly those names back: the result climbs
    through no [".."] and loses nothing. *)
Theorem safe_relpath_below start rel :
  start ≠ [] → Forall plain start → Forall plain rel →
  safe_relpath (start ++ rel) start
  = match rel with
    | [] => "."
    | _ :: _ => replace_char backslash slash (String.concat "/" rel)
    end ∧
  (rel ≠ [] → Forall (λ c, contains backslash c = false) rel →
   split_at slash (safe_relpath (start ++ rel) start) = rel ∧
   ".." ∉ split_at slash (safe_relpath (start ++ rel) start)).
Proof.
  intros _ _ Hrel. unfold safe_relpath. rewrite relpath_below. split.
  { by destruct rel. }
  intros Hne Hback.
  assert (split_at slash
            (replace_char backslash slash
               match rel with [] => "." | _ :: _ => String.concat "/" rel end) = rel)
    as Hsplit.
  { destruct rel as [|c rel]; [done|].
    rewrite replace_char_id by (by apply contains_concat).
    apply split_at_concat; [done|].
    eapply Forall_impl; [exact Hrel|]. by intros c' (_ & _ & _ & ?). }
  split; [exact Hsplit|]. rewrite Hsplit. intros Hin.
  rewrite Forall_forall in Hrel. by destruct (Hrel _ Hin) as (_ & _ & ? & _).
Qed.

Lemma replace_char_absent a b s :
  a ≠ b → ¬ In a (list_ascii_of_string (replace_char a b s)).
Proof.
  intros Hab. induction s as [|c s IH]; cbn; [tauto|].
  intros [H|H]; [|by apply IH].
  destruct (Ascii.eqb_spec c a); congruence.
Qed.

(** X2.  Whatever the two paths are, the text that [safe_relpath] returns
    holds no backslash. *)
Theorem safe_relpath_no_backslash p start :
  ¬ In backslash (list_ascii_of_string (safe_relpath p start)).
Proof. apply replace_char_absent. by vm_compute. Qed.

(** X3.  Every file that the worker finds by its walk lies strictly below
    the staging directory, and the remote path built for it is
    ["submissions/"], the team, ["/"], and the components below the
    staging directory joined by ["/"]. *)
Theorem walked_file_remote_path cwd team td f :
  f ∈ os_walk_files cwd td →
  ∃ rel,
    rel ≠ [] ∧ f = td ++ rel ∧
    gh_path_of team td f
    = "submissions/" +:+ team +:+ "/" +:+
      replace_char backslash slash (String.concat "/" rel).
Proof.
  unfold os_walk_files. intros Hf.
  destruct (fs_lookup cwd td) as [[d|es]|]; try by apply elem_of_nil in Hf.
  apply walk_below in Hf as (rel & -> & Hrel). exists rel. split_and!; try done.
  unfold gh_path_of, safe_relpath. rewrite relpath_below. by destruct rel.
Qed.

(** *** What the upsert sends *)

(** The requests of one call: none, the read alone, or the read and the
    write; both when the call returns. *)
Lemma github_upload_sent lp gp w :
  let url := contents_url gp in
  let out := github_upload lp gp w in
  ∃ sent,
    wire out.2 = wire w ++ sent ∧
    match out.1 with
    | inr _ => ∃ payload, sent = [HttpGet url auth_headers; HttpPut url payload auth_headers]
    | inl e =>
        (sent = [] ∧ e = OSError lp ∧ out.2 = w) ∨
        (sent = [HttpGet url auth_headers] ∧
         (e = ConnectionError ∨ e = JSONDecodeError ∨ e = TypeError ∨ e = KeyError "sha")) ∨
        (∃ payload,
           sent = [HttpGet url auth_headers; HttpPut url payload auth_headers] ∧
           e = ConnectionError)
    end.
Proof.
  cbn zeta.
  unfold github_upload, bind, read_bytes, requests_get, requests_put, read_sha,
    response_json, lift, ret, raise, set_remote.
  destruct w as [us sf cs uq um cwd ts r wr]. cbn.
  destruct (fs_lookup cwd lp) as [[data|]|]; cbn;
    try (exists []; rewrite app_nil_r; split; [done|by left]).
  destruct (http_get r (contents_url gp) auth_headers) as [[get_res|] r1]; cbn;
    [|eexists; split; [done|right; left; eauto]].
  destruct (status_code get_res =? 200)%Z; cbn.
  - destruct (json_body get_res) as [j|]; cbn;
      [|eexists; split; [done|right; left; eauto]].
    unfold subscript. destruct j as [| | | | |items]; cbn;
      try (eexists; split; [done|right; left; eauto 6]).
    destruct (assoc "sha" items) as [sha|]; cbn;
      [|eexists; split; [done|right; left; eauto 6]].
    destruct (http_put r1 _ _ _) as [[put_res|] r2]; cbn; rewrite <- app_assoc;
      eexists; (split; [done|]); eauto 6.
  - destruct (http_put r1 _ _ _) as [[put_res|] r2]; cbn; rewrite <- app_assoc;
      eexists; (split; [done|]); eauto 6.
Qed.

(** X4.  When a call of [github_upload] raises, one of three things has
    happened.  The local file could not be read: nothing was sent and the
    world is as before.  Or the read was sent and no write followed: the
    read raised, or it was answered with 200 and a body that is not JSON,
    not an object, or an object without a ["sha"] key.  Or both requests
    were sent and the write raised.  A write is never sent after a read
    that raised or whose 200 answer could not be used. *)
Theorem github_upload_raises lp gp w e w' :
  github_upload lp gp w = (inl e, w') →
  let url := contents_url gp in
  (e = OSError lp ∧ w' = w) ∨
  (wire w' = wire w ++ [HttpGet url auth_headers] ∧
   (e = ConnectionError ∨ e = JSONDecodeError ∨ e = TypeError ∨ e = KeyError "sha")) ∨
  (∃ payload,
     wire w' = wire w ++ [HttpGet url auth_headers; HttpPut url payload auth_headers] ∧
     e = ConnectionError).
Proof.
  intros H. cbn zeta.
  destruct (github_upload_sent lp gp w) as (sent & Hw & Hcases). rewrite H in *.
  cbn [fst snd] in *.
  destruct Hcases as [(-> & -> & ->)|[(-> & He)|(payload & -> & ->)]].
  - by left.
  - right. left. done.
  - right. right. eauto.
Qed.

(** X5.  A call of [github_upload] that returns has read the local file
    and sent two requests to the same URL, the contents URL of the remote
    path, both with the bearer token: first the read, then a write whose
    payload holds the commit message ["Upload <path>"], the Base64 text of
    the file under ["content"], and no key other than ["message"],
    ["content"] and ["sha"]. *)
Theorem github_upload_payload lp gp w ok st txt w' :
  github_upload lp gp w = (inr (ok, st, txt), w') →
  ∃ data payload,
    fs_lookup (fs w) lp = Some (File data) ∧
    wire w' = wire w ++ [HttpGet (contents_url gp) auth_headers;
                         HttpPut (contents_url gp) payload auth_headers] ∧
    auth_headers !! "Authorization" = Some bearer ∧
    payload !! "message" = Some (JStr ("Upload " +:+ gp)) ∧
    payload !! "content" = Some (JStr (b64encode data)) ∧
    (∀ k, is_Some (payload !! k) → k = "message" ∨ k = "content" ∨ k = "sha").
Proof.
  intros H.
  apply github_upload_inr in H
    as (data & get_res & r1 & sha & put_res & r2 & Hlp & _ & _ & _ & -> & _).
  exists data, (make_payload gp (b64encode data) sha).
  cbn [wire set_remote]. rewrite <- app_assoc. split_and!; try done.
  - unfold make_payload. destruct (truthy sha);
      rewrite ?(lookup_insert_ne _ "sha") by done;
      rewrite lookup_insert_ne by done; by rewrite lookup_singleton_eq.
  - unfold make_payload. destruct (truthy sha);
      rewrite ?(lookup_insert_ne _ "sha") by done; by rewrite lookup_insert_eq.
  - intros k [v Hk]. unfold make_payload in Hk.
    destruct (decide (k = "sha")) as [->|?]; [eauto|].
    destruct (decide (k = "content")) as [->|?]; [eauto|].
    destruct (decide (k = "message")) as [->|?]; [eauto|].
    destruct (truthy sha); rewrite ?lookup_insert_ne in Hk by done;
      by rewrite lookup_singleton_ne in Hk.
Qed.

(** *** What the worker changes *)

Lemma upload_loop_effects q uid team td total files :
  ∀ i w m,
    upload_meta w !! uid = Some m →
    let answers := upsert_answers (fs w) (remote w) team td files in
    let out := upload_loop q uid team td total i files w in
    upload_meta out.2
    = match returned answers with
      | 0 => upload_meta w
      | S k => <[uid := mkMeta (meta_total m) (i + k) (meta_team m)]> (upload_meta w)
      end ∧
    wire out.2 = wire w ++ upsert_requests (fs w) (remote w) team td files ∧
    fs out.2 = fs w ∧
    untouched w out.2.
Proof.
  induction files as [|f rest IH]; intros i w m Hm; cbn zeta.
  { cbn. by rewrite app_nil_r. }
  rewrite upload_loop_cons. cbn zeta. cbn [upsert_answers upsert_requests].
  set (gh := gh_path_of team td f).
  set (w1 := (q_put q (ev_upload_start gh i total) w).2).
  rewrite github_upload_frame.
  change (fs w1) with (fs w). change (remote w1) with (remote w).
  destruct (github_upload f gh (probe (fs w) (remote w))) as [[e|res] wp]
    eqn:Eup; cbn [fst snd].
  { subst w1. unfold untouched. cbn. by rewrite length_alter. }
  set (w2 := graft w1 wp).
  set (w3 := (q_put q (ev_outcome gh res) w2).2).
  unfold set_current. change (upload_meta w3) with (upload_meta w). rewrite Hm.
  set (w4 := set_upload_meta _ w3).
  specialize (IH (S i) w4 (mkMeta (meta_total m) i (meta_team m))).
  change (fs w4) with (fs w) in IH. change (remote w4) with (remote wp) in IH.
  cbn zeta in IH. unfold untouched in *.
  destruct IH as (IH1 & IH2 & IH3 & IH4 & IH5 & IH6 & IH7 & IH8).
  { cbn. by rewrite lookup_insert_eq. }
  cbn [returned]. split_and!.
  - rewrite IH1. cbn [meta_total meta_team upload_meta w4 set_upload_meta].
    destruct (returned _) as [|k].
    + by rewrite Nat.add_0_r.
    + rewrite insert_insert_eq. by replace (S i + k) with (i + S k) by lia.
  - rewrite IH2. cbn. by rewrite <- !app_assoc.
  - by rewrite IH3.
  - by rewrite IH4.
  - by rewrite IH5.
  - by rewrite IH6.
  - by rewrite IH7.
  - rewrite IH8. cbn. by rewrite !length_alter.
Qed.

(** A whole run of the worker whose queue is registered. *)
Lemma process_upload_effects uid team td w q :
  upload_queues w !! uid = Some q →
  let files := os_walk_files (fs w) td in
  let answers := upsert_answers (fs w) (remote w) team td files in
  let out := process_upload uid team td w in
  upload_meta out.2
  = <[uid := mkMeta (length files) (returned answers) team]> (upload_meta w) ∧
  wire out.2 = wire w ++ upsert_requests (fs w) (remote w) team td files ∧
  fs out.2 = rmtree_fs (fs w) td ∧
  untouched w out.2.
Proof.
  intros Hreg. cbn zeta. rewrite (process_upload_unfold _ _ _ _ _ Hreg). cbn zeta.
  rewrite process_body_unfold. cbn zeta.
  set (files := os_walk_files (fs w) td).
  set (w1 := set_upload_meta _ w).
  set (w2 := (q_put q (ev_info (length files)) w1).2).
  pose proof (upload_loop_effects q uid team td (length files) files 1 w2
                (mkMeta (length files) 0 team)) as Hloop.
  cbn zeta in Hloop. unfold untouched in Hloop.
  change (fs w2) with (fs w) in Hloop. change (remote w2) with (remote w) in Hloop.
  destruct Hloop as (L1 & L2 & L3 & L4 & L5 & L6 & L7 & L8).
  { cbn. by rewrite lookup_insert_eq. }
  assert (upload_meta (upload_loop q uid team td (length files) 1 files w2).2
          = <[uid := mkMeta (length files)
                       (returned (upsert_answers (fs w) (remote w) team td files)) team]>
              (upload_meta w)) as L1'.
  { rewrite L1. cbn. destruct (returned _); [done|]. by rewrite insert_insert_eq. }
  destruct (upload_loop q uid team td (length files) 1 files w2) as [[e|[]] w3];
    cbn [fst snd] in *; unfold untouched; cbn;
    rewrite ?length_alter, L1', L2, L3, L4, L5, L6, L7, L8; cbn;
    by rewrite ?length_alter.
Qed.

(** A run of the worker whose id is not registered does nothing. *)
Lemma process_upload_unregistered uid team td w :
  upload_queues w !! uid = None → process_upload uid team td w = (inr tt, w).
Proof. intros H. unfold process_upload, bind, gets. by rewrite H. Qed.






(** X8.  A run of the worker, whatever its arguments and the world, leaves
    the lock table, its saved copy, the registry of queues and the list of
    started threads as they were; and when its id is not registered it
    returns at once and changes nothing at all: no event, no request, and
    the staging directory stays. *)
Theorem worker_leaves_locks_alone uid team td w :
  let out := process_upload uid team td w in
  upload_state out.2 = upload_state w ∧
  state_file out.2 = state_file w ∧
  upload_queues out.2 = upload_queues w ∧
  threads out.2 = threads w ∧
  (upload_queues w !! uid = None → out = (inr tt, w)).
Proof.
  cbn zeta. destruct (upload_queues w !! uid) as [q|] eqn:Hreg.
  - destruct (process_upload_effects uid team td w q Hreg) as (_ & _ & _ & H).
    destruct H as (? & ? & ? & ? & _). done.
  - by rewrite (process_upload_unregistered _ _ _ _ Hreg).
Qed.

(** *** What the clean-up removes *)

Lemma assoc_set_entry_ne c c' n es : c' ≠ c → assoc c' (set_entry c n es) = assoc c' es.
Proof.
  intros Hne. induction es as [|[c0 n0] es IH]; cbn.
  - destruct (String.eqb_spec c' c); congruence.
  - destruct (String.eqb_spec c c0) as [->|?]; cbn.
    + destruct (String.eqb_spec c' c0); congruence.
    + by rewrite IH.
Qed.

Lemma assoc_del_entry_ne c c' es : c' ≠ c → assoc c' (del_entry c es) = assoc c' es.
Proof.
  intros Hne. induction es as [|[c0 n0] es IH]; [done|]. unfold del_entry in *.
  rewrite filter_cons. cbn. destruct (decide (c0 ≠ c)) as [Hd|Hd]; cbn.
  - by rewrite IH.
  - rewrite IH. destruct (String.eqb_spec c' c0) as [E|E]; [|done].
    exfalso. apply Hd. congruence.
Qed.

(** A change at [p] is not seen at a path that is neither above nor below
    [p]. *)
Lemma fs_lookup_fs_update_ne p : ∀ n q new,
  ¬ p `prefix_of` q → ¬ q `prefix_of` p →
  fs_lookup (fs_update n p new) q = fs_lookup n q.
Proof.
  induction p as [|c p IH]; intros n q new Hpq Hqp.
  { exfalso. apply Hpq. apply prefix_nil. }
  destruct q as [|c' q]; [exfalso; apply Hqp; apply prefix_nil|].
  cbn [fs_update]. destruct n as [d|es]; [done|].
  destruct (assoc c es) as [child|] eqn:Ec; [|done].
  destruct (decide (c' = c)) as [->|Hne].
  - assert (¬ p `prefix_of` q) as Hpq' by (intros H; apply Hpq; by apply prefix_cons).
    assert (¬ q `prefix_of` p) as Hqp' by (intros H; apply Hqp; by apply prefix_cons).
    destruct p as [|c2 p]; [exfalso; apply Hpq'; apply prefix_nil|].
    cbn [fs_lookup]. rewrite assoc_set_entry_eq, Ec. by apply IH.
  - destruct p as [|c2 p]; [destruct new|]; cbn [fs_lookup];
      rewrite ?assoc_set_entry_ne, ?assoc_del_entry_ne by done; done.
Qed.

(** X9.  A run of the worker changes the working directory below its
    staging directory only: at every path that is neither the staging
    directory, nor inside it, nor one of the directories above it, what
    is on disk after the run is what was there before. *)
Theorem worker_removes_only_staging uid team td w p :
  ¬ td `prefix_of` p → ¬ p `prefix_of` td →
  fs_lookup (fs (process_upload uid team td w).2) p = fs_lookup (fs w) p.
Proof.
  intros Hout Hup. destruct (upload_queues w !! uid) as [q|] eqn:Hreg.
  - destruct (process_upload_effects uid team td w q Hreg) as (_ & _ & -> & _).
    unfold rmtree_fs. destruct (fs_lookup (fs w) td) as [[d|es]|]; try done.
    by apply fs_lookup_fs_update_ne.
  - by rewrite (process_upload_unregistered _ _ _ _ Hreg).
Qed.

(** *** The event stream *)

Lemma stream_next_Some q w c ev :
  channels w !! q = Some c → produced c !! consumed c = Some ev →
  stream_next q w
  = Some (sse_chunk ev, String.eqb ev.1 "closed",
          set_channels (<[q := mkChannel (produced c) (S (consumed c))]> (channels w)) w).
Proof. intros Hc Hev. unfold stream_next, q_get. rewrite Hc. cbn. by rewrite Hev. Qed.

Lemma stream_next_None q w c :
  channels w !! q = Some c → produced c !! consumed c = None → stream_next q w = None.
Proof. intros Hc Hev. unfold stream_next, q_get. rewrite Hc. cbn. by rewrite Hev. Qed.

(** What the generator yields from a queue, item by item. *)
Lemma stream_spec fuel : ∀ q w c,
  channels w !! q = Some c →
  let pend := upto_closed (drop (consumed c) (produced c)) in
  let out := stream fuel q w in
  out.1.1 = sse_chunk <$> take fuel pend ∧
  channels out.2 !! q = Some (mkChannel (produced c) (consumed c + length (take fuel pend))) ∧
  (out.1.2 = true ↔ ∃ ev, last (take fuel pend) = Some ev ∧ ev.1 = "closed") ∧
  (∀ q', q' ≠ q → channels out.2 !! q' = channels w !! q').
Proof.
  induction fuel as [|fuel IH]; intros q w c Hc; cbn zeta.
  { cbn. rewrite Nat.add_0_r. split_and!; try done.
    - by destruct c.
    - split; [done|]. by intros (ev & ? & _). }
  cbn [stream].
  destruct (produced c !! consumed c) as [ev|] eqn:Eev.
  - rewrite (stream_next_Some _ _ _ _ Hc Eev).
    rewrite (drop_S _ _ _ Eev). cbn [upto_closed].
    pose proof (lookup_lt_Some _ _ _ Hc) as Hlt.
    destruct (String.eqb ev.1 "closed") eqn:Ecl.
    + cbn. rewrite take_nil. cbn. rewrite list_lookup_insert_eq by done.
      replace (consumed c + 1) with (S (consumed c)) by lia.
      split_and!; try done.
      * split; [|done]. intros _. exists ev. split; [done|]. by apply String.eqb_eq.
      * intros q' Hne. by rewrite list_lookup_insert_ne.
    + set (w' := set_channels _ w).
      specialize (IH q w' (mkChannel (produced c) (S (consumed c)))).
      cbn zeta in IH. cbn [produced consumed] in IH.
      destruct IH as (I1 & I2 & I3 & I4).
      { unfold w'. cbn. by rewrite list_lookup_insert_eq. }
      destruct (stream fuel q w') as [[chunks e] w'']. cbn [fst snd] in *.
      cbn [take fmap list_fmap length]. rewrite I1.
      split_and!.
      * done.
      * rewrite I2. do 2 f_equal. lia.
      * rewrite I3. destruct (take fuel (upto_closed (drop (S (consumed c)) (produced c))))
          as [|ev' l] eqn:Et.
        -- cbn. split; [by intros (? & ? & _)|]. intros (ev0 & Hl & Hn).
           simplify_eq. apply String.eqb_neq in Ecl. done.
        -- by rewrite last_cons_cons.
      * intros q' Hne. rewrite I4 by done. unfold w'. cbn.
        by rewrite list_lookup_insert_ne.
  - rewrite (stream_next_None _ _ _ Hc Eev).
    rewrite (drop_ge (produced c)) by (by apply lookup_ge_None). cbn.
    rewrite Nat.add_0_r. split_and!; try done.
    + by destruct c.
    + split; [done|]. by intros (ev & ? & _).
Qed.

(** X10.  The generator of [/events] hands out the pending items of its
    queue in the order they were put, each as one chunk, and stops after
    the first [closed]: driven for [fuel] items it yields the chunks of
    the first [fuel] items up to and including that [closed], has ended
    exactly when the last of them is [closed], and has taken from the
    queue exactly what it yielded. *)
Theorem stream_in_order fuel q w c :
  channels w !! q = Some c →
  let pend := upto_closed (drop (consumed c) (produced c)) in
  let out := stream fuel q w in
  out.1.1 = sse_chunk <$> take fuel pend ∧
  channels out.2 !! q = Some (mkChannel (produced c) (consumed c + length out.1.1)) ∧
  (out.1.2 = true ↔ ∃ ev, last (take fuel pend) = Some ev ∧ ev.1 = "closed").
Proof.
  intros Hc. cbn zeta. destruct (stream_spec fuel q w c Hc) as (H1 & H2 & H3 & _).
  split_and!; [done| |done]. by rewrite H2, H1, length_fmap.
Qed.



(** *** Logging in *)

(** X12.  Where [bcrypt.checkpw] answers, [verify] returns a reply and
    never changes the world.  It sends the client on to [/upload], with
    the team stored in the session, in exactly one case: a [POST] that
    names a team of [teams.json] other than the administrator's, whose
    stored hash is not empty and matches the PIN (an absent PIN is the
    empty text), and whose lock is not set. *)
Theorem verify_grants_team_session m ft fp sess w s' :
  (verify m ft fp sess w).2 = w ∧
  (∃ r, (verify m ft fp sess w).1 = inr r) ∧
  ((verify m ft fp sess w).1 = inr (Redirect "upload" None, s') ↔
   m = POST ∧
   ∃ team hash,
     ft = Some team ∧ teams !! team = Some hash ∧ hash ≠ "" ∧
     checkpw (default "" fp) hash = true ∧
     team ≠ "VEGAVATH ADS" ∧ has_submitted w team = false ∧
     s' = mkSession (Some team) (sess_admin sess)).
Proof.
  unfold verify. destruct m; cbn.
  { split_and!; [done|eauto|]. split; [done|]. by intros [? _]. }
  destruct ft as [team|]; cbn;
    [|split_and!; [done|eauto|]; split; [done|]; by intros (_ & ? & ? & ? & _)].
  destruct (teams !! team) as [hash|] eqn:Ht; cbn;
    [|split_and!; [done|eauto|]; split; [done|]; by intros (_ & ? & ? & ? & ? & _);
      simplify_eq].
  destruct (String.eqb_spec hash "") as [->|Hh]; cbn.
  { split_and!; [done|eauto|]. split; [done|].
    intros (_ & ? & ? & ? & ? & ? & _). by simplify_eq. }
  destruct (checkpw (default "" fp) hash) eqn:Hpw; cbn; last first.
  { split_and!; [done|eauto|]. split; [done|].
    intros (_ & ? & ? & ? & ? & ? & ? & _). simplify_eq. congruence. }
  destruct (String.eqb_spec team "VEGAVATH ADS") as [->|Hadm]; cbn.
  { split_and!; [done|eauto|]. split; [done|].
    intros (_ & ? & ? & ? & ? & ? & ? & ? & _). by simplify_eq. }
  unfold bind, gets. destruct (has_submitted w team) eqn:Hsub; cbn.
  { split_and!; [done|eauto|]. split; [done|].
    intros (_ & ? & ? & ? & ? & ? & ? & ? & ? & _). simplify_eq. congruence. }
  split_and!; [done|eauto|]. split.
  - intros ?. simplify_eq. split; [done|]. by exists team, hash.
  - intros (_ & ? & ? & ? & ? & ? & ? & ? & ? & ->). by simplify_eq.
Qed.

(** X13.  The administrator's key: [verify] returns a session with
    ["admin"] in it only when the request already had it, or when a [POST]
    names the team ["VEGAVATH ADS"] with a PIN that matches its stored
    hash; in that case it always does, whether or not a lock is set for
    that name, and it stores no team.  No other view adds the key: each
    returns the session it was given, or the empty one. *)
Theorem admin_key_needs_pin :
  (∀ m ft fp sess w r s',
     (verify m ft fp sess w).1 = inr (r, s') → sess_admin s' = true →
     sess_admin sess = true ∨
     (m = POST ∧ ft = Some "VEGAVATH ADS" ∧
      ∃ hash, teams !! "VEGAVATH ADS" = Some hash ∧ hash ≠ "" ∧
              checkpw (default "" fp) hash = true)) ∧
  (∀ fp sess w hash,
     teams !! "VEGAVATH ADS" = Some hash → hash ≠ "" →
     checkpw (default "" fp) hash = true →
     verify POST (Some "VEGAVATH ADS") fp sess w
     = (inr (Redirect "admin_panel" None, mkSession (sess_team sess) true), w)) ∧
  (∀ m sess file uuid w r s',
     (upload m sess file uuid w).1 = inr (r, s') → s' = sess ∨ s' = no_session) ∧
  (∀ uid sess w r s', (events uid sess w).1 = inr (r, s') → s' = sess) ∧
  (∀ sess w r s', (success sess w).1 = inr (r, s') → s' = sess) ∧
  (∀ sess w r s', (admin_panel sess w).1 = inr (r, s') → s' = sess) ∧
  (∀ team sess w r s', (reset_team team sess w).1 = inr (r, s') → s' = sess).
Proof.
  split_and!.
  - intros m ft fp sess w r s' H Hadm. unfold verify in H. destruct m; cbn in H.
    { simplify_eq. by left. }
    destruct ft as [team|]; cbn in H; [|simplify_eq; by left].
    destruct (teams !! team) as [hash|] eqn:Ht; cbn in H; [|simplify_eq; by left].
    destruct (String.eqb_spec hash "") as [->|Hh]; cbn in H; [simplify_eq; by left|].
    destruct (checkpw (default "" fp) hash) eqn:Hpw; cbn in H; [|simplify_eq; by left].
    destruct (String.eqb_spec team "VEGAVATH ADS") as [->|Hne]; cbn in H.
    + right. split_and!; try done. by exists hash.
    + unfold bind, gets in H. destruct (has_submitted w team); cbn in H;
        simplify_eq; by left.
  - intros fp sess w hash Ht Hh Hpw. unfold verify. cbn. rewrite Ht. cbn.
    apply String.eqb_neq in Hh. by rewrite Hh, Hpw.
  - intros m sess file uuid w r s' H.
    destruct (sess_team sess) as [team|] eqn:Hs; last first.
    { unfold upload in H. rewrite Hs in H. cbn in H. simplify_eq. by left. }
    destruct m.
    { unfold upload in H. rewrite Hs in H. cbn in H. simplify_eq. by left. }
    rewrite (upload_post_unfold _ _ _ _ _ Hs) in H. cbn zeta in H.
    repeat (case_match; try done). cbn in H. simplify_eq. by right.
  - intros uid sess w r s' H. unfold events, bind, gets in H.
    destruct (upload_queues w !! uid); cbn in H; by simplify_eq.
  - intros sess w r s' H. cbn in H. by simplify_eq.
  - intros sess w r s' H. unfold admin_panel in H.
    destruct (sess_admin sess); cbn in H; by simplify_eq.
  - intros team sess w r s' H. unfold reset_team in H.
    destruct (sess_admin sess); cbn in H; by simplify_eq.
Qed.

(** *** Locks and resets *)

(** X14.  The two administrator views.  Without ["admin"] in the session,
    [reset_team] and [admin_panel] send the client to [verify] and change
    nothing.  With it, [reset_team] writes [False] for the given name,
    whether or not that name is a team or had an entry, saves the whole
    table, and touches no other entry, no queue, no thread and no file. *)
Theorem reset_team_effect team sess w :
  (sess_admin sess = false →
   reset_team team sess w = (inr (Redirect "verify" None, sess), w) ∧
   admin_panel sess w = (inr (Redirect "verify" None, sess), w)) ∧
  (sess_admin sess = true →
   let out := reset_team team sess w in
   out.1 = inr (Redirect "admin_panel" None, sess) ∧
   upload_state out.2 = <[team := false]> (upload_state w) ∧
   has_submitted out.2 team = false ∧
   state_file out.2 = Some (upload_state out.2) ∧
   (∀ other, other ≠ team → has_submitted out.2 other = has_submitted w other) ∧
   upload_queues out.2 = upload_queues w ∧ channels out.2 = channels w ∧
   threads out.2 = threads w ∧ fs out.2 = fs w ∧ upload_meta out.2 = upload_meta w).
Proof.
  unfold reset_team, admin_panel. split; intros ->; cbn; [done|].
  unfold has_submitted. cbn. rewrite lookup_insert_eq. split_and!; try done.
  intros other Hne. by rewrite lookup_insert_ne.
Qed.

(** The world of an accepted upload. *)
Lemma upload_accepted w sess team file uuid r w' :
  sess_team sess = Some team →
  upload POST sess file uuid w = (inr r, w') →
  ∃ n data members,
    file = Some data ∧ zip_members data = Some members ∧
    r = (Redirect "success" (Some uuid), no_session) ∧
    w' = (thread_start uuid team (staging_dir team uuid)
            (register uuid (locked team (set_fs n w))).2).2.
Proof.
  intros Hs Hup. rewrite (upload_post_unfold _ _ _ _ _ Hs) in Hup. cbn zeta in Hup.
  destruct (makedirs (fs w) _) as [n1|]; [|done].
  destruct file as [data|]; [|done].
  destruct (write_file n1 _ data) as [n2|]; [|done].
  destruct (zip_members data) as [members|] eqn:Ez; [|done].
  destruct (extractall_frame members (staging_dir team uuid) (set_fs n2 w)) as [n3 H3].
  destruct (extractall members _ _) as [[e|[]] w3]; [done|]. cbn [snd] in H3. subst w3.
  destruct (os_remove_frame (staging_dir team uuid ++ ["sub.zip"]) (set_fs n3 (set_fs n2 w)))
    as [n4 H4].
  destruct (os_remove _ _) as [[e|[]] w4]; [done|]. cbn [snd] in H4. subst w4.
  simplify_eq. by exists n4, data, members.
Qed.

(** X15.  What an accepted upload does besides staging the files: it
    answers with a redirect to [success] that carries the new id and with
    an emptied session; it sets the lock of the team and saves the table,
    leaving the locks of other teams alone; it makes one new, empty queue
    and registers it under the new id, leaving the other entries alone;
    and it starts exactly one thread, for that id, team and staging
    directory.  No request is sent and no progress counter is written. *)
Theorem upload_accepted_effect w sess team file uuid r w' :
  sess_team sess = Some team →
  upload POST sess file uuid w = (inr r, w') →
  r = (Redirect "success" (Some uuid), no_session) ∧
  upload_state w' = <[team := true]> (upload_state w) ∧
  state_file w' = Some (upload_state w') ∧
  channels w' = channels w ++ [mkChannel [] 0] ∧
  upload_queues w' = <[uuid := length (channels w)]> (upload_queues w) ∧
  threads w' = threads w ++ [(uuid, team, staging_dir team uuid)] ∧
  upload_meta w' = upload_meta w ∧ wire w' = wire w ∧ remote w' = remote w.
Proof.
  intros Hs Hup.
  destruct (upload_accepted _ _ _ _ _ _ _ Hs Hup) as (n & data & members & _ & _ & -> & ->).
  done.
Qed.

(** A failed upload has changed the working directory at most. *)
(** The staging part changes nothing but the working directory. *)
Lemma stage_archive_frame td file w : ∃ n, (stage_archive td file w).2 = set_fs n w.
Proof.
  rewrite stage_archive_unfold. cbn zeta.
  destruct (makedirs (fs w) td) as [n1|]; [|exists (fs w); by rewrite set_fs_id].
  destruct file as [data|]; [|by exists n1].
  destruct (write_file n1 _ data) as [n2|]; [|by exists n1].
  destruct (zip_members data) as [members|]; [|by exists n2].
  destruct (extractall_frame members td (set_fs n2 w)) as [n3 H3].
  destruct (extractall members _ _) as [[e3|[]] w3]; cbn [snd] in H3; subst w3;
    [by exists n3|].
  destruct (os_remove_frame (td ++ ["sub.zip"]) (set_fs n3 (set_fs n2 w))) as [n4 H4].
  exists n4. exact H4.
Qed.

(** X16.  When a statement of the staging part of [/upload] raises (the
    staging directory cannot be made, the form has no file, the file
    cannot be saved, the bytes are not an archive, a member cannot be
    written, the container cannot be removed), the view raises that
    exception, and nothing but the working directory has changed: the
    lock of the team is not set, nothing is saved, no queue is made or
    registered, and no thread is started.  (What follows the staging
    part, the write of the state file and the start of the thread, is
    taken to succeed in this development; a failure there is not
    covered.) *)
Theorem upload_failed_effect sess team file uuid w e w' :
  sess_team sess = Some team →
  stage_archive (staging_dir team uuid) file w = (inl e, w') →
  upload POST sess file uuid w = (inl e, w') ∧
  upload_state w' = upload_state w ∧ state_file w' = state_file w ∧
  channels w' = channels w ∧ upload_queues w' = upload_queues w ∧
  threads w' = threads w ∧ upload_meta w' = upload_meta w ∧
  wire w' = wire w ∧ remote w' = remote w.
Proof.
  intros Hs Hstage. split.
  - unfold upload. rewrite Hs. cbn zeta. unfold bind at 1. by rewrite Hstage.
  - destruct (stage_archive_frame (staging_dir team uuid) file w) as [n Hn].
    rewrite Hstage in Hn. cbn [snd] in Hn. by subst w'.
Qed.

(** X17.  [/upload] does something only for a [POST] that comes with a
    team in its session: without a team it sends the client to [verify],
    and a [GET] with a team shows the form; in both cases nothing is
    staged, locked, registered or started, whatever file and id come with
    the request. *)
Theorem upload_needs_team_and_post m sess file uuid w :
  (sess_team sess = None →
   upload m sess file uuid w = (inr (Redirect "verify" None, sess), w)) ∧
  (is_Some (sess_team sess) → m = GET →
   upload m sess file uuid w = (inr (Rendered "upload.html" None, sess), w)).
Proof.
  unfold upload. split.
  - by intros ->.
  - intros [team ->] ->. done.
Qed.

(** X18.  One more submission after a reset.  When the administrator
    resets a team, the next login of that team with its PIN is let
    through to [/upload]; and once an upload of that session has been
    accepted, a further login of the team is turned away again. *)
Theorem reset_allows_one_submission team pin hash admin sess file uuid w r w2 :
  sess_admin admin = true →
  teams !! team = Some hash → hash ≠ "" → checkpw pin hash = true →
  team ≠ "VEGAVATH ADS" →
  let w1 := (reset_team team admin w).2 in
  let granted := mkSession (Some team) (sess_admin sess) in
  upload POST granted file uuid w1 = (inr r, w2) →
  verify POST (Some team) (Some pin) sess w1 = (inr (Redirect "upload" None, granted), w1) ∧
  verify POST (Some team) (Some pin) sess w2
  = (inr (Rendered "verify.html"
            (Some "⚠️ Your team already submitted. Contact admin to unlock."), sess), w2).
Proof.
  intros Hadm Ht Hh Hpw Hne. cbn zeta. intros Hup.
  apply String.eqb_neq in Hh, Hne. split.
  - unfold verify. cbn. rewrite Ht, Hh, Hpw, Hne. cbn.
    unfold reset_team. rewrite Hadm. unfold bind, gets, has_submitted. cbn.
    by rewrite lookup_insert_eq.
  - destruct (upload_accepted _ (mkSession (Some team) (sess_admin sess)) team _ _ _ _
                eq_refl Hup) as (n & _ & _ & _ & _ & _ & ->).
    apply (verify_rejects_locked _ team pin sess hash); try done.
    + by rewrite Hh, Hpw.
    + unfold has_submitted. cbn. by rewrite lookup_insert_eq.
Qed.

(** One action keeps the table in memory equal to the saved one. *)
Lemma lock_table_saved_step a w w' :
  upload_state w = default ∅ (state_file w) → perform a w = Some w' →
  upload_state w' = default ∅ (state_file w').
Proof.
  intros IH Ha. destruct a; cbn in Ha.
  - simplify_eq. by rewrite verify_world.
  - assert (w' = after (upload m sess file uuid) w) as ->.
    { destruct m; [by simplify_eq|]. destruct (upload_queues w !! uuid); by simplify_eq. }
    by destruct (upload_world m sess file uuid w) as [[n ->]|(team & n & _ & _ & ->)].
  - by simplify_eq.
  - simplify_eq. by rewrite events_world.
  - simplify_eq. by rewrite admin_panel_world.
  - simplify_eq. unfold after, reset_team. by destruct (sess_admin sess).
  - unfold stream_next, q_get in Ha.
    destruct (channels w !! q) as [c|]; [|done]. cbn in Ha.
    destruct (produced c !! consumed c) as [ev|]; [|done]. cbn in Ha. by simplify_eq.
  - unfold run_worker in Ha.
    destruct (threads w !! i) as [[[uid team] td]|]; [|done]. simplify_eq.
    unfold after.
    destruct (upload_queues w !! uid) as [q|] eqn:Hreg.
    + destruct (process_upload_effects uid team td
                  (set_threads (delete i (threads w)) w) q Hreg) as (_ & _ & _ & H).
      destruct H as (-> & -> & _). done.
    + by rewrite (process_upload_unregistered uid team td
                    (set_threads (delete i (threads w)) w) Hreg).
Qed.

(** X19.  The saved lock table follows the one in memory.  Every
    statement that writes the table in memory is followed by
    [save_upload_state()], and a write of the file that fails raises out
    of the view; so after any run of the server in which every request
    was answered without an exception, the table in memory is the one
    last written to [uploads_state.json] (or is empty when that file was
    never there), and a server booted from the file has the same locks.
    (The write of the file is taken to succeed in this development, which
    is why the property is stated for such runs only.) *)
Theorem lock_table_is_saved saved cwd r acts w :
  run_answered acts (boot saved cwd r) = Some w →
  upload_state w = default ∅ (state_file w) ∧
  ∀ cwd' r', upload_state (boot (state_file w) cwd' r') = upload_state w.
Proof.
  intros Hrun.
  assert (upload_state w = default ∅ (state_file w)) as Hinv; [|by split].
  assert (upload_state (boot saved cwd r) = default ∅ (state_file (boot saved cwd r)))
    as H0 by done.
  revert Hrun H0. generalize (boot saved cwd r) as w0.
  induction acts as [|a acts IH]; intros w0 Hrun H0; cbn in Hrun.
  - by simplify_eq.
  - destruct (raises a w0); [done|].
    destruct (perform a w0) as [w1|] eqn:Ha; [|done].
    apply (IH w1 Hrun). by eapply lock_table_saved_step.
Qed.

(** X20.  The stream of a submission is open to anyone who knows its id:
    [events] answers 404 exactly when the id is not registered, otherwise
    with the stream of the registered queue, and the answer is the same
    whatever the session of the request holds.  It never changes the
    world. *)
Theorem events_by_id_alone uid sess w :
  (events uid sess w).2 = w ∧
  (events uid sess w).1
  = inr (match upload_queues w !! uid with
         | Some q => EventStream q
         | None => Plain "Invalid" 404
         end, sess) ∧
  ∀ sess', ((events uid sess' w).1 = inr (Plain "Invalid" 404, sess') ↔
            upload_queues w !! uid = None).
Proof.
  unfold events, bind, gets.
  destruct (upload_queues w !! uid); cbn; (split_and!; [done|done|]);
    intros sess'; split; intros ?; by simplify_eq.
Qed.

(** *** What the walk lists *)

Lemma wf_node_Dir es :
  wf_node (Dir es) = true ↔
  NoDup (map fst es) ∧ Forall (λ e : string * node, wf_node e.2 = true) es.
Proof.
  cbn [wf_node]. rewrite andb_true_iff, bool_decide_eq_true.
  apply and_iff_compat_l.
  induction es as [|[c n] es IH]; [by split; [constructor|]|].
  rewrite andb_true_iff, Forall_cons, IH. done.
Qed.

Lemma assoc_elem {A} c (x : A) es : assoc c es = Some x → (c, x) ∈ es.
Proof.
  induction es as [|[c' x'] es IH]; [done|]. cbn.
  destruct (String.eqb_spec c c') as [->|?]; intros H.
  - simplify_eq. by left.
  - right. by apply IH.
Qed.

Lemma assoc_NoDup {A} c (x : A) es :
  NoDup (map fst es) → (c, x) ∈ es → assoc c es = Some x.
Proof.
  induction es as [|[c' x'] es IH]; intros Hnd Hin; [by apply elem_of_nil in Hin|].
  cbn in Hnd. apply NoDup_cons in Hnd as [Hc' Hnd]. cbn.
  apply elem_of_cons in Hin as [Heq|Hin].
  - simplify_eq. by rewrite String.eqb_refl.
  - destruct (String.eqb_spec c c') as [->|?]; [|by apply IH].
    exfalso. apply Hc'. by apply (list_elem_of_fmap_2' fst _ (c', x)).
Qed.

Lemma fs_lookup_app p : ∀ n q,
  fs_lookup n (p ++ q) = fs_lookup n p ≫= λ m, fs_lookup m q.
Proof.
  induction p as [|c p IH]; intros n q; [done|]. cbn.
  destruct n as [d|es]; [done|]. destruct (assoc c es); [apply IH|done].
Qed.

(** In a tree without double names, the walk finds only regular files. *)
Lemma walk_sound n : ∀ root p,
  wf_node n = true → p ∈ walk root n →
  ∃ rel d, rel ≠ [] ∧ p = root ++ rel ∧ fs_lookup n rel = Some (File d).
Proof.
  induction n as [d|es IH] using node_ind'; intros root p Hwf Hp.
  { by apply elem_of_nil in Hp. }
  apply wf_node_Dir in Hwf as [Hnd Hch].
  rewrite walk_Dir in Hp. apply elem_of_app in Hp as [Hp|Hp].
  - apply (list_elem_of_fmap_1 (λ name, root ++ [name])) in Hp as (name & -> & Hn).
    apply file_names_elem in Hn as [d Hd].
    exists [name], d. split_and!; try done. cbn. by rewrite (assoc_NoDup _ _ _ Hnd Hd).
  - apply elem_of_concat in Hp as (l & Hp & Hl).
    apply (list_elem_of_fmap_1 (λ e : string * node, walk (root ++ [e.1]) e.2)) in Hl
      as ([name child] & -> & He).
    rewrite Forall_forall in IH, Hch.
    destruct (IH _ He _ _ (Hch _ He) Hp) as (rel & d & Hrel & -> & Hl).
    exists (name :: rel), d. split_and!; [done|by rewrite <- app_assoc|].
    cbn. by rewrite (assoc_NoDup _ _ _ Hnd He).
Qed.

(** The walk finds every regular file below a directory. *)
Lemma walk_complete rel : ∀ n root d,
  rel ≠ [] → fs_lookup n rel = Some (File d) → root ++ rel ∈ walk root n.
Proof.
  induction rel as [|c rel IH]; intros n root d Hne Hl; [done|].
  cbn in Hl. destruct n as [|es]; [done|].
  destruct (assoc c es) as [child|] eqn:Ec; [|done].
  apply assoc_elem in Ec. rewrite walk_Dir. apply elem_of_app.
  destruct rel as [|c2 rel].
  - cbn in Hl. simplify_eq. left.
    apply (list_elem_of_fmap_2' _ _ c); [|done]. apply file_names_elem. by exists d.
  - right. apply list_elem_of_In, in_concat.
    exists (walk (root ++ [c]) child). split.
    + apply in_map_iff. by exists (c, child); split; [|apply list_elem_of_In].
    + apply list_elem_of_In. replace (root ++ c :: c2 :: rel) with ((root ++ [c]) ++ c2 :: rel)
        by (by rewrite <- app_assoc).
      by eapply IH.
Qed.

(** *** No operation makes a directory list a name twice *)




Lemma wf_assoc c es child :
  wf_node (Dir es) = true → assoc c es = Some child → wf_node child = true.
Proof.
  rewrite wf_node_Dir. intros [_ Hch] Ha. apply assoc_elem in Ha.
  rewrite Forall_forall in Hch. exact (Hch _ Ha).
Qed.

Lemma wf_lookup p : ∀ n m, wf_node n = true → fs_lookup n p = Some m → wf_node m = true.
Proof.
  induction p as [|c p IH]; intros n m Hwf Hl; cbn in Hl; [by simplify_eq|].
  destruct n as [|es]; [done|]. destruct (assoc c es) as [child|] eqn:Ec; [|done].
  eapply IH; [|exact Hl]. by eapply wf_assoc.
Qed.
















(** In a tree without double names, the walk lists no path twice. *)
Lemma walk_NoDup n : ∀ root, wf_node n = true → NoDup (walk root n).
Proof.
  induction n as [d|es IH] using node_ind'; intros root Hwf; [constructor|].
  apply wf_node_Dir in Hwf as [Hnd Hch]. rewrite walk_Dir.
  apply NoDup_app. split_and!.
  - assert (Inj (=) (=) (λ name : string, root ++ [name])) as Hinj.
    { intros a b H. apply app_inv_head in H. by simplify_eq. }
    apply (NoDup_fmap_2 (λ name, root ++ [name])).
    unfold file_names. eapply sublist_NoDup; [exact Hnd|].
    apply (fmap_sublist fst), sublist_filter.
  - intros p Hp Hq.
    apply (list_elem_of_fmap_1 (λ name, root ++ [name])) in Hp as (name & -> & _).
    apply elem_of_concat in Hq as (l & Hq & Hl).
    apply (list_elem_of_fmap_1 (λ e : string * node, walk (root ++ [e.1]) e.2)) in Hl
      as ([name' child] & -> & He).
    apply walk_below in Hq as (rel & Heq & Hrel). cbn in Heq.
    rewrite <- app_assoc in Heq. apply app_inv_head in Heq.
    destruct rel; [done|]. by simplify_eq.
  - induction es as [|[name child] es IHes]; [constructor|].
    apply Forall_cons in IH as [Hc IH]. apply Forall_cons in Hch as [Hchild Hch].
    cbn in Hnd. apply NoDup_cons in Hnd as [Hname Hnd].
    cbn [map concat fst snd]. apply NoDup_app. split_and!.
    + by apply Hc.
    + intros p Hp Hq. apply walk_below in Hp as (rel & -> & _).
      apply elem_of_concat in Hq as (l & Hq & Hl).
      apply (list_elem_of_fmap_1 (λ e : string * node, walk (root ++ [e.1]) e.2)) in Hl
        as ([name' child'] & -> & He).
      apply walk_below in Hq as (rel' & Heq & _). cbn in Heq.
      rewrite <- !app_assoc in Heq. apply app_inv_head in Heq. simplify_eq.
      apply Hname. by apply (list_elem_of_fmap_2' fst _ (name', child')).
    + by apply IHes.
Qed.

(** X21.  The list of files that the worker builds from [os.walk] holds
    exactly the regular files below the staging directory, at any depth,
    and each of them once; directories are not in it, and it is empty
    when the staging directory is missing.  The working directory is a
    tree in which no directory lists a name twice. *)
Theorem file_list_is_the_files_below cwd td f :
  wf_node cwd = true →
  (f ∈ os_walk_files cwd td ↔
   ∃ rel data, rel ≠ [] ∧ f = td ++ rel ∧ fs_lookup cwd f = Some (File data)) ∧
  NoDup (os_walk_files cwd td).
Proof.
  intros Hwf. unfold os_walk_files.
  destruct (fs_lookup cwd td) as [[d|es]|] eqn:El.
  - split; [|constructor]. split; [by intros ?%elem_of_nil|].
    intros (rel & data & Hrel & -> & Hl). rewrite fs_lookup_app, El in Hl.
    by destruct rel.
  - pose proof (wf_lookup _ _ _ Hwf El) as Hwf'. split; [|by apply walk_NoDup].
    split.
    + intros Hf. destruct (walk_sound _ _ _ Hwf' Hf) as (rel & data & Hrel & -> & Hl).
      exists rel, data. split_and!; [done|done|]. by rewrite fs_lookup_app, El.
    + intros (rel & data & Hrel & -> & Hl). rewrite fs_lookup_app, El in Hl.
      by eapply walk_complete.
  - split; [|constructor]. split; [by intros ?%elem_of_nil|].
    intros (rel & data & Hrel & -> & Hl). by rewrite fs_lookup_app, El in Hl.
Qed.


(** *** Staging directories of different submissions *)

(** For a team name and an id without ["/"] the staging directory is one
    directory of the working directory. *)
Lemma staging_dir_plain team uid :
  contains slash team = false → contains slash uid = false →
  staging_dir team uid = ["temp_" +:+ team +:+ "_" +:+ uid].
Proof.
  intros Ht Hu. unfold staging_dir, os_path. rewrite split_at_absent.
  - by rewrite filter_cons_True, filter_nil.
  - rewrite !contains_append, Ht, Hu. reflexivity.
Qed.

Lemma staging_dir_inj t1 u1 t2 u2 :
  contains slash t1 = false → contains slash u1 = false →
  contains slash t2 = false → contains slash u2 = false →
  String.length u1 = String.length u2 →
  staging_dir t1 u1 = staging_dir t2 u2 → t1 = t2 ∧ u1 = u2.
Proof.
  intros Ht1 Hu1 Ht2 Hu2 Hlen Heq.
  rewrite !staging_dir_plain in Heq by done. injection Heq as Heq.
  change (t1 +:+ "_" +:+ u1 = t2 +:+ "_" +:+ u2) in Heq.
  apply append_inj in Heq as [-> Heq]; [|rewrite !length_append; cbn; lia].
  rewrite !append_cons in Heq. injection Heq as Heq. exact (conj eq_refl Heq).
Qed.

(** X23.  Ids drawn by [uuid.uuid4()] all have the same length and hold
    no ["/"].  For team names that hold no ["/"] either, two submissions
    that differ in team or id have different staging directories, both
    directly in the working directory, and the worker of one leaves
    everything in the staging directory of the other as it is.  (A team
    name with a ["/"] puts its staging directory inside another
    directory, which can be the staging directory of another
    submission.) *)
Theorem worker_leaves_other_submissions uid t1 u1 t2 u2 w rel :
  contains slash t1 = false → contains slash u1 = false →
  contains slash t2 = false → contains slash u2 = false →
  String.length u1 = String.length u2 → (t1, u1) ≠ (t2, u2) →
  staging_dir t1 u1 ≠ staging_dir t2 u2 ∧
  length (staging_dir t1 u1) = 1 ∧ length (staging_dir t2 u2) = 1 ∧
  fs_lookup (fs (process_upload uid t1 (staging_dir t1 u1) w).2) (staging_dir t2 u2 ++ rel)
  = fs_lookup (fs w) (staging_dir t2 u2 ++ rel).
Proof.
  intros Ht1 Hu1 Ht2 Hu2 Hlen Hne.
  assert (staging_dir t1 u1 ≠ staging_dir t2 u2) as Hdir.
  { intros Heq. apply Hne.
    by destruct (staging_dir_inj _ _ _ _ Ht1 Hu1 Ht2 Hu2 Hlen Heq) as [-> ->]. }
  split; [done|].
  rewrite (staging_dir_plain t1 u1), (staging_dir_plain t2 u2) in * by done.
  split; [done|]. split; [done|].
  destruct (upload_queues w !! uid) as [q|] eqn:Hreg;
    [|by rewrite (process_upload_unregistered _ _ _ _ Hreg)].
  destruct (process_upload_effects uid t1 ["temp_" +:+ t1 +:+ "_" +:+ u1] w q Hreg)
    as (_ & _ & -> & _).
  unfold rmtree_fs.
  destruct (fs_lookup (fs w) ["temp_" +:+ t1 +:+ "_" +:+ u1]) as [[d|es]|]; try done.
  apply fs_lookup_fs_update_ne; cbn.
  - intros [k Hk]. cbn in Hk. apply Hdir. congruence.
  - intros [k Hk]. cbn in Hk. apply Hdir. congruence.
Qed.

(** *** Who changes a lock *)

(** X24.  Whatever happens on the server, a lock that is set stays set
    unless [/reset/<team>] is served for that team with an admin session,
    and a lock that is not set becomes set only when [/upload] is served
    by POST with a session of that team.  No worker, stream or other
    view changes a lock. *)
Theorem lock_changes_by_upload_and_reset a w w' team :
  perform a w = Some w' →
  (has_submitted w team = true →
   has_submitted w' team = true ∨ ∃ sess, a = DoReset team sess ∧ sess_admin sess = true) ∧
  (has_submitted w team = false → has_submitted w' team = true →
   ∃ sess file uuid, a = DoUpload POST sess file uuid ∧ sess_team sess = Some team).
Proof.
  intros Ha.
  assert (upload_state w' = upload_state w →
          (has_submitted w team = true →
           has_submitted w' team = true ∨
           ∃ sess, a = DoReset team sess ∧ sess_admin sess = true) ∧
          (has_submitted w team = false → has_submitted w' team = true →
           ∃ sess file uuid, a = DoUpload POST sess file uuid ∧ sess_team sess = Some team))
    as Hsame.
  { intros Heq. unfold has_submitted. rewrite Heq. split; [by left|congruence]. }
  destruct a; cbn in Ha.
  - simplify_eq. apply Hsame. by rewrite verify_world.
  - assert (w' = after (upload m sess file uuid) w) as ->.
    { destruct m; [by simplify_eq|].
      destruct (upload_queues w !! uuid); [done|by simplify_eq]. }
    destruct (upload_world m sess file uuid w) as [[n Hw]|(t & n & Hs & -> & Hw)].
    { apply Hsame. by rewrite Hw. }
    unfold has_submitted. rewrite Hw. cbn.
    destruct (decide (team = t)) as [->|Hne].
    + rewrite lookup_insert_eq. cbn. split; [by left|]. intros _ _. by exists sess, file, uuid.
    + rewrite lookup_insert_ne by done. split; [by left|congruence].
  - simplify_eq. by apply Hsame.
  - simplify_eq. apply Hsame. by rewrite events_world.
  - simplify_eq. apply Hsame. by rewrite admin_panel_world.
  - simplify_eq. destruct (sess_admin sess) eqn:Hadm; last first.
    { apply Hsame. unfold after, reset_team. by rewrite Hadm. }
    unfold has_submitted, after, reset_team. rewrite Hadm. cbn.
    destruct (decide (team = team0)) as [->|Hne].
    + rewrite lookup_insert_eq. cbn. split; [|done]. intros _. right. by exists sess.
    + rewrite lookup_insert_ne by done. split; [by left|congruence].
  - apply Hsame. unfold stream_next, q_get in Ha.
    destruct (channels w !! q) as [c|]; [|done]. cbn in Ha.
    destruct (produced c !! consumed c); [|done]. cbn in Ha. by simplify_eq.
  - apply Hsame. unfold run_worker in Ha.
    destruct (threads w !! i) as [[[uid t] td]|]; [|done]. simplify_eq. unfold after.
    set (w1 := set_threads _ w).
    destruct (upload_queues w1 !! uid) as [q|] eqn:Hreg.
    + by destruct (process_upload_effects uid t td w1 q Hreg) as (_ & _ & _ & -> & _).
    + by rewrite (process_upload_unregistered _ _ _ _ Hreg).
Qed.

End App.

(** ** A concrete installation

    One choice for everything the program takes from outside, to run the
    definitions on. *)

(** A remote store that answers from a script: each request takes the
    next answer, and the call raises once the script is used up. *)
Definition scripted_get (r : list (option response)) (url : string)
    (headers : gmap string string) : option response * list (option response) :=
  match r with
  | [] => (None, [])
  | a :: r' => (a, r')
  end.

Definition scripted_put (r : list (option response)) (url : string)
    (payload : gmap string json) (headers : gmap string string)
    : option response * list (option response) :=
  match r with
  | [] => (None, [])
  | a :: r' => (a, r')
  end.

Definition quote : string := String (ascii_of_nat 34) "".

(** [json.dumps] on values whose strings need no escaping. *)
Fixpoint demo_dumps (v : json) : string :=
  match v with
  | JNull => "null"
  | JBool b => if b then "true" else "false"
  | JNum n => pretty n
  | JStr s => quote +:+ s +:+ quote
  | JArr items =>
      "[" +:+
      (fix each (l : list json) : string :=
         match l with
         | [] => ""
         | x :: l' =>
             demo_dumps x +:+
             match l' with [] => "" | _ :: _ => ", " +:+ each l' end
         end) items +:+ "]"
  | JObj items =>
      "{" +:+
      (fix each (l : list (string * json)) : string :=
         match l with
         | [] => ""
         | (k, x) :: l' =>
             quote +:+ k +:+ quote +:+ ": " +:+ demo_dumps x +:+
             match l' with [] => "" | _ :: _ => ", " +:+ each l' end
         end) items +:+ "}"
  end.

(** A stand-in for [bcrypt]: the hash of a PIN is the PIN after a prefix. *)
Definition demo_checkpw (pin hash : string) : bool := String.eqb ("bcrypt:" +:+ pin) hash.

(** A stand-in for [zipfile]: three byte strings are archives, nothing
    else is. *)
Definition demo_zip_members (data : bytes) : option (list (path * bytes)) :=
  match data with
  | [x50; x4b; x01] => Some [(["a.txt"], [x61]); (["b"; "c.txt"], [x63]); (["d.bin"], [x00; xff])]
  | [x50; x4b; x02] => Some [(["b.txt"], [x62]); (["a.txt"], [x61])]
  | [x50; x4b; x03] => Some [(["a.txt"], [x61])]
  | _ => None
  end.

Definition demo_teams : gmap string string :=
  <["teamX" := "bcrypt:1234"]> (<["VEGAVATH ADS" := "bcrypt:0000"]> ∅).

(** An answer with a status and an empty JSON object as its body. *)
Definition answers_with (st : Z) : option response :=
  Some (mkResponse st "{}" (Some (JObj []))).

(** An answer to a read: the object exists and carries this revision
    marker. *)
Definition found_with (sha : string) : option response :=
  Some (mkResponse 200 "{...}" (Some (JObj [("sha", JStr sha)]))).

Definition allow_all (p : path) : bool := true.

(** A system on which a file named [a.txt] cannot be unlinked (it is
    held open, say) and everything else can. *)
Definition keep_a_txt (p : path) : bool :=
  negb (bool_decide (last p = Some "a.txt")).

Definition demo_token : option string := Some "token".

Abbreviation Script := (list (option response)).
Abbreviation demo_github_upload := (github_upload scripted_get scripted_put demo_token).
Abbreviation demo_answers := (upsert_answers scripted_get scripted_put demo_token).
Abbreviation demo_process_upload :=
  (process_upload scripted_get scripted_put demo_dumps allow_all demo_token).
Abbreviation demo_upload := (upload (Remote := Script) demo_zip_members allow_all).
Abbreviation demo_verify := (verify (Remote := Script) demo_checkpw demo_teams).
Abbreviation demo_perform :=
  (perform scripted_get scripted_put demo_dumps demo_checkpw demo_zip_members allow_all
     demo_token demo_teams).
Abbreviation demo_run :=
  (run scripted_get scripted_put demo_dumps demo_checkpw demo_zip_members allow_all
     demo_token demo_teams).
Abbreviation demo_reachable :=
  (reachable scripted_get scripted_put demo_dumps demo_checkpw demo_zip_members allow_all
     demo_token demo_teams).

Definition team_session : session := mkSession (Some "teamX") false.
Definition zip_three : bytes := [x50; x4b; x01].
Definition zip_two : bytes := [x50; x4b; x02].
Definition zip_one : bytes := [x50; x4b; x03].

(** The server after one accepted upload by [teamX], with a remote store
    that will answer the given script. *)
Definition uploaded (archive : bytes) (script : Script) : World :=
  (demo_upload POST team_session (Some archive) "u1" (boot None (Dir []) script)).2.

Definition staging : path := staging_dir "teamX" "u1".

(** Three files; the second one is refused by the remote store. *)
Definition script_three : Script :=
  [answers_with 404; answers_with 201;
   answers_with 404; answers_with 422;
   answers_with 404; answers_with 201].

(** The scenario with the files [a.txt], [b/c.txt] and [d.bin] of team
    [teamX]: the walk takes the two files of the staging directory before
    the one in [b]. *)
Example three_files_events :
  produced_at 0 (demo_process_upload "u1" "teamX" staging (uploaded zip_three script_three)).2
  = [ev_info demo_dumps 3;
     ev_upload_start demo_dumps "submissions/teamX/a.txt" 1 3;
     ev_upload_done demo_dumps "submissions/teamX/a.txt" 201;
     ev_upload_start demo_dumps "submissions/teamX/d.bin" 2 3;
     ev_upload_error demo_dumps "submissions/teamX/d.bin" 422 "{}";
     ev_upload_start demo_dumps "submissions/teamX/b/c.txt" 3 3;
     ev_upload_done demo_dumps "submissions/teamX/b/c.txt" 201;
     ev_finished demo_dumps; ev_closed demo_dumps].
Proof. vm_compute. reflexivity. Qed.

(** *** The upsert *)

(** A working directory with one file, and a remote store on which the
    object exists: the read is answered with 200 and the marker, the write
    with 200. *)
Definition one_file : node := Dir [("f.txt", File [x68; x69])].
Definition marker_world : World :=
  boot None one_file [found_with "3f2a"; answers_with 200].


(** The call on that store returns success, and its write carries the
    marker of the read. *)
Example marker_goes_into_write :
  (demo_github_upload ["f.txt"] "f.txt" marker_world).1 = inr (true, 200%Z, "{}") ∧
  ∃ payload,
    wire (demo_github_upload ["f.txt"] "f.txt" marker_world).2
    = [HttpGet (contents_url "f.txt") (auth_headers demo_token);
       HttpPut (contents_url "f.txt") payload (auth_headers demo_token)] ∧
    payload !! "sha" = Some (JStr "3f2a").
Proof. split; [vm_compute; reflexivity|]. eexists. split; vm_compute; reflexivity. Qed.

(** *** The worker *)






Definition first_upload : action := DoUpload POST team_session (Some zip_three) "u1".


(** *** The routes *)

(** C8, as stated, fails: registering an id that is registered succeeds. *)
Lemma register_refuses_duplicate_fails :
  ¬ register_refuses_duplicate (uploaded zip_three script_three) "u1".
Proof.
  intros H. destruct H as (e & He & _).
  - vm_compute. eauto.
  - vm_compute in He. discriminate.
Qed.

(** Registering ["u1"] a second time. *)
Lemma register_replaces_witness :
  let w := uploaded zip_three script_three in
  upload_queues w !! "u1" = Some 0 ∧ 0 < length (channels w) ∧
  let out := register "u1" w in
  let q_new := length (channels w) in
  out.1 = inr q_new ∧ q_new ≠ 0 ∧
  upload_queues out.2 !! "u1" = Some q_new ∧
  channels out.2 !! q_new = Some (mkChannel [] 0) ∧
  channels out.2 !! 0 = channels w !! 0 ∧
  (∀ other, other ≠ "u1" → upload_queues out.2 !! other = upload_queues w !! other).
Proof.
  cbn zeta. split; [vm_compute; reflexivity|]. split; [vm_compute; lia|].
  apply (register_replaces (uploaded zip_three script_three) "u1" 0).
  - vm_compute. reflexivity.
  - vm_compute. lia.
Defined.

(** Bytes that are not an archive. *)
Definition not_a_zip : bytes := [x00].

(** C6, as stated, fails: after the failed extraction the staging
    directory and the saved [sub.zip] are on disk. *)
Lemma corrupt_archive_is_atomic_fails :
  ¬ corrupt_archive_is_atomic demo_zip_members allow_all
      (boot None (Dir []) ([] : Script)) team_session not_a_zip "u1".
Proof.
  intros H. destruct (H eq_refl) as (_ & _ & _ & _ & Hfs).
  vm_compute in Hfs. discriminate.
Qed.

(** An upload of bytes that are not an archive. *)
Lemma upload_corrupt_archive_witness :
  let w := boot None (Dir []) ([] : Script) in
  sess_team team_session = Some "teamX" ∧ demo_zip_members not_a_zip = None ∧
  let out := demo_upload POST team_session (Some not_a_zip) "u1" w in
  (∃ e, out.1 = inl e) ∧
  threads out.2 = threads w ∧
  channels out.2 = channels w ∧
  upload_queues out.2 = upload_queues w ∧
  upload_meta out.2 = upload_meta w ∧
  upload_state out.2 = upload_state w ∧
  state_file out.2 = state_file w.
Proof.
  cbn zeta. split; [reflexivity|]. split; [reflexivity|].
  apply (upload_corrupt_archive demo_zip_members allow_all
           (boot None (Dir []) ([] : Script)) team_session "teamX" not_a_zip "u1");
    reflexivity.
Defined.

(** C7, as stated, fails: two listings of the same two files give two
    different file lists; the walk follows the listing, not the names. *)
Lemma file_list_order_is_stable_fails :
  ¬ file_list_order_is_stable ["t"] [("a.txt", File []); ("b.txt", File [])].
Proof.
  intros H. specialize (H [("b.txt", File []); ("a.txt", File [])]).
  assert ([("b.txt", File []); ("a.txt", File [])]
          ≡ₚ [("a.txt", File []); ("b.txt", File [])]) as Hp by apply perm_swap.
  apply H in Hp. vm_compute in Hp. discriminate.
Qed.

(** An archive that lists [b.txt] before [a.txt] is walked in that order. *)
Example two_files_walk :
  os_walk_files (fs (uploaded zip_two [])) staging
  = [staging ++ ["b.txt"]; staging ++ ["a.txt"]].
Proof. vm_compute. reflexivity. Qed.

(** An accepted upload of the archive with [b.txt] and [a.txt]. *)
Lemma file_list_follows_listing_witness :
  let w := boot None (Dir []) ([] : Script) in
  let out := demo_upload POST team_session (Some zip_two) "u1" w in
  sess_team team_session = Some "teamX" ∧
  out = (inr (Redirect "success" (Some "u1"), no_session), out.2) ∧
  ∃ es,
    fs_lookup (fs out.2) staging = Some (Dir es) ∧
    os_walk_files (fs out.2) staging
    = map (λ name, staging ++ [name]) (file_names es) ++
      concat (map (λ e : string * node, walk (staging ++ [e.1]) e.2) es) ∧
    staging ++ ["sub.zip"] ∉ os_walk_files (fs out.2) staging.
Proof.
  cbn zeta. split; [reflexivity|]. split; [vm_compute; reflexivity|].
  apply (file_list_follows_listing demo_zip_members allow_all
           (boot None (Dir []) ([] : Script)) team_session "teamX" (Some zip_two) "u1"
           (Redirect "success" (Some "u1"), no_session)).
  - reflexivity.
  - vm_compute. reflexivity.
Defined.

(** The server on a system that will not unlink [a.txt], after one
    accepted upload of an archive with that file. *)
Definition uploaded_locked_file : World :=
  (upload (Remote := Script) demo_zip_members keep_a_txt POST team_session
     (Some zip_one) "u1" (boot None (Dir []) [answers_with 404; answers_with 201])).2.


Example closed_put_over_staging :
  last (produced_at 0
          (process_upload scripted_get scripted_put demo_dumps keep_a_txt demo_token
             "u1" "teamX" staging uploaded_locked_file).2)
  = Some (ev_closed demo_dumps).
Proof. vm_compute. reflexivity. Qed.


(** *** The registry *)

(** One upload, its worker, a stream request, and the nine events of the
    stream taken, [closed] last. *)
Definition drain_actions : list action :=
  [first_upload; DoRunWorker 0; DoEvents "u1" no_session] ++ replicate 9 (DoStreamNext 0).

Definition drained : World :=
  default (boot None (Dir []) script_three)
    (demo_run drain_actions (boot None (Dir []) script_three)).

(** A later world: another team session has uploaded in the meantime. *)
Definition drained_later : World :=
  default drained (demo_run [DoUpload POST team_session (Some zip_one) "u2"] drained).

(** The registry between the drained world and the later one. *)
Lemma registry_never_shrinks_witness :
  demo_reachable (boot None (Dir []) script_three) drained ∧
  demo_reachable drained drained_later ∧
  (∀ uid q, upload_queues drained !! uid = Some q →
            upload_queues drained_later !! uid = Some q) ∧
  (∀ uid q c i sess,
     upload_queues drained !! uid = Some q → channels drained !! q = Some c →
     produced c !! i = Some (ev_closed demo_dumps) → i < consumed c →
     (events uid sess drained_later).1 = inr (EventStream q, sess) ∧
     stream_next q drained_later = None).
Proof.
  assert (demo_reachable (boot None (Dir []) script_three) drained) as Hr.
  { apply (run_reachable _ _ _ _ _ _ _ _ drain_actions). vm_compute. reflexivity. }
  assert (demo_reachable drained drained_later) as Hr'.
  { apply (run_reachable _ _ _ _ _ _ _ _ [DoUpload POST team_session (Some zip_one) "u2"]).
    vm_compute. reflexivity. }
  split; [exact Hr|]. split; [exact Hr'|].
  exact (registry_never_shrinks scripted_get scripted_put demo_dumps demo_checkpw
           demo_zip_members allow_all demo_token demo_teams
           None (Dir []) script_three drained drained_later Hr Hr').
Defined.

(** In the drained world the stream of ["u1"] is found and blocks. *)
Example late_stream_blocks :
  (events "u1" no_session drained_later).1 = inr (EventStream 0, no_session) ∧
  stream_next 0 drained_later = None ∧
  (events "nobody" no_session drained_later).1 = inr (Plain "Invalid" 404, no_session).
Proof. vm_compute. done. Qed.

(** *** The lock *)

(** Two browsers of [teamX] log in before either has uploaded; the first
    uploads, which sets the lock; the login page now turns the team away,
    and the second browser uploads all the same. *)
Definition fresh_server : World := boot None (Dir []) ([] : Script).
Definition after_first_upload : World :=
  (demo_upload POST team_session (Some zip_one) "u1" fresh_server).2.

(** C5 fails on the code: the second upload of a team whose lock is set
    is accepted and starts a second worker, because [/upload] never looks
    at [upload_state]; only [verify] does. *)
Theorem second_upload_is_accepted :
  (demo_verify POST (Some "teamX") (Some "1234") no_session fresh_server).1
  = inr (Redirect "upload" None, team_session) ∧
  has_submitted after_first_upload "teamX" = true ∧
  state_file after_first_upload = Some (upload_state after_first_upload) ∧
  (demo_verify POST (Some "teamX") (Some "1234") no_session after_first_upload).1
  = inr (Rendered "verify.html"
           (Some "⚠️ Your team already submitted. Contact admin to unlock."), no_session) ∧
  (demo_upload POST team_session (Some zip_one) "u2" after_first_upload).1
  = inr (Redirect "success" (Some "u2"), no_session) ∧
  threads (demo_upload POST team_session (Some zip_one) "u2" after_first_upload).2
  = [("u1", "teamX", staging_dir "teamX" "u1"); ("u2", "teamX", staging_dir "teamX" "u2")].
Proof. vm_compute. done. Qed.

(** ** Further properties at work *)

(** *** Paths *)

(** The file [b/c.txt] below the staging directory of [teamX]. *)
Lemma safe_relpath_below_witness :
  let rel := ["b"; "c.txt"] in
  staging ≠ [] ∧ Forall plain staging ∧ Forall plain rel ∧
  safe_relpath (staging ++ rel) staging
  = replace_char backslash slash (String.concat "/" rel) ∧
  (rel ≠ [] → Forall (λ c, contains backslash c = false) rel →
   split_at slash (safe_relpath (staging ++ rel) staging) = rel ∧
   ".." ∉ split_at slash (safe_relpath (staging ++ rel) staging)).
Proof.
  cbn zeta.
  assert (Forall plain staging) as H1.
  { vm_compute. repeat constructor; discriminate. }
  assert (Forall plain ["b"; "c.txt"]) as H2.
  { repeat constructor; discriminate. }
  split; [discriminate|]. split; [exact H1|]. split; [exact H2|].
  apply (safe_relpath_below staging ["b"; "c.txt"]); [discriminate|exact H1|exact H2].
Defined.

(** The file [b/c.txt] of the three-file submission and its remote path. *)
Lemma walked_file_remote_path_witness :
  let cwd := fs (uploaded zip_three script_three) in
  let f := staging ++ ["b"; "c.txt"] in
  f ∈ os_walk_files cwd staging ∧
  ∃ rel,
    rel ≠ [] ∧ f = staging ++ rel ∧
    gh_path_of "teamX" staging f
    = "submissions/" +:+ "teamX" +:+ "/" +:+
      replace_char backslash slash (String.concat "/" rel).
Proof.
  cbn zeta.
  assert (staging ++ ["b"; "c.txt"]
          ∈ os_walk_files (fs (uploaded zip_three script_three)) staging) as Hin.
  { apply list_elem_of_In. vm_compute. right. right. left. reflexivity. }
  split; [exact Hin|].
  exact (walked_file_remote_path (fs (uploaded zip_three script_three)) "teamX" staging
           (staging ++ ["b"; "c.txt"]) Hin).
Defined.

(** The file list of the three-file submission. *)
Lemma file_list_is_the_files_below_witness :
  let cwd := fs (uploaded zip_three script_three) in
  let f := staging ++ ["b"; "c.txt"] in
  wf_node cwd = true ∧
  (f ∈ os_walk_files cwd staging ↔
   ∃ rel data, rel ≠ [] ∧ f = staging ++ rel ∧ fs_lookup cwd f = Some (File data)) ∧
  NoDup (os_walk_files cwd staging).
Proof.
  cbn zeta. split; [vm_compute; reflexivity|].
  apply (file_list_is_the_files_below (fs (uploaded zip_three script_three)) staging
           (staging ++ ["b"; "c.txt"])).
  vm_compute. reflexivity.
Defined.

(** *** The upsert *)

(** A remote store that cannot be reached: the read raises. *)
Lemma github_upload_raises_witness :
  let w := boot None one_file ([] : Script) in
  let w' := (demo_github_upload ["f.txt"] "f.txt" w).2 in
  let url := contents_url "f.txt" in
  demo_github_upload ["f.txt"] "f.txt" w = (inl ConnectionError, w') ∧
  ((ConnectionError = OSError ["f.txt"] ∧ w' = w) ∨
   (wire w' = wire w ++ [HttpGet url (auth_headers demo_token)] ∧
    (ConnectionError = ConnectionError ∨ ConnectionError = JSONDecodeError ∨
     ConnectionError = TypeError ∨ ConnectionError = KeyError "sha")) ∨
   (∃ payload,
      wire w' = wire w ++ [HttpGet url (auth_headers demo_token);
                           HttpPut url payload (auth_headers demo_token)] ∧
      ConnectionError = ConnectionError)).
Proof.
  cbn zeta. split; [vm_compute; reflexivity|].
  apply (github_upload_raises scripted_get scripted_put demo_token ["f.txt"] "f.txt"
           (boot None one_file ([] : Script)) ConnectionError).
  vm_compute. reflexivity.
Defined.

(** The two requests of a call that returns. *)
Lemma github_upload_payload_witness :
  let w := marker_world in
  let w' := (demo_github_upload ["f.txt"] "f.txt" w).2 in
  demo_github_upload ["f.txt"] "f.txt" w = (inr (true, 200%Z, "{}"), w') ∧
  ∃ data payload,
    fs_lookup (fs w) ["f.txt"] = Some (File data) ∧
    wire w' = wire w ++ [HttpGet (contents_url "f.txt") (auth_headers demo_token);
                         HttpPut (contents_url "f.txt") payload (auth_headers demo_token)] ∧
    auth_headers demo_token !! "Authorization" = Some (bearer demo_token) ∧
    payload !! "message" = Some (JStr ("Upload " +:+ "f.txt")) ∧
    payload !! "content" = Some (JStr (b64encode data)) ∧
    (∀ k, is_Some (payload !! k) → k = "message" ∨ k = "content" ∨ k = "sha").
Proof.
  cbn zeta. split; [vm_compute; reflexivity|].
  apply (github_upload_payload scripted_get scripted_put demo_token ["f.txt"] "f.txt"
           marker_world true 200%Z "{}").
  vm_compute. reflexivity.
Defined.

(** *** The worker *)



(** Two accepted uploads of [teamX], neither worker run yet. *)
Definition two_uploads : World :=
  (demo_upload POST team_session (Some zip_one) "u2" (uploaded zip_three script_three)).2.

(** The worker of ["u1"] and a file of ["u2"]. *)
Lemma worker_removes_only_staging_witness :
  let p := staging_dir "teamX" "u2" ++ ["a.txt"] in
  ¬ staging `prefix_of` p ∧ ¬ p `prefix_of` staging ∧
  fs_lookup (fs (demo_process_upload "u1" "teamX" staging two_uploads).2) p
  = fs_lookup (fs two_uploads) p.
Proof.
  cbn zeta.
  assert (¬ staging `prefix_of` staging_dir "teamX" "u2" ++ ["a.txt"]) as H1.
  { intros [k Hk]. vm_compute in Hk. discriminate. }
  assert (¬ staging_dir "teamX" "u2" ++ ["a.txt"] `prefix_of` staging) as H2.
  { intros [k Hk]. vm_compute in Hk. discriminate. }
  split; [exact H1|]. split; [exact H2|].
  exact (worker_removes_only_staging scripted_get scripted_put demo_dumps allow_all
           demo_token "u1" "teamX" staging two_uploads
           (staging_dir "teamX" "u2" ++ ["a.txt"]) H1 H2).
Defined.

(** Two submissions of one team. *)
Lemma worker_leaves_other_submissions_witness :
  contains slash "teamX" = false ∧ contains slash "u1" = false ∧
  contains slash "teamX" = false ∧ contains slash "u2" = false ∧
  String.length "u1" = String.length "u2" ∧ ("teamX", "u1") ≠ ("teamX", "u2") ∧
  staging_dir "teamX" "u1" ≠ staging_dir "teamX" "u2" ∧
  length (staging_dir "teamX" "u1") = 1 ∧ length (staging_dir "teamX" "u2") = 1 ∧
  fs_lookup (fs (demo_process_upload "u1" "teamX" (staging_dir "teamX" "u1") two_uploads).2)
    (staging_dir "teamX" "u2" ++ ["a.txt"])
  = fs_lookup (fs two_uploads) (staging_dir "teamX" "u2" ++ ["a.txt"]).
Proof.
  do 5 (split; [reflexivity|]). split; [discriminate|].
  apply (worker_leaves_other_submissions scripted_get scripted_put demo_dumps allow_all
           demo_token "u1" "teamX" "u1" "teamX" "u2" two_uploads ["a.txt"]);
    first [reflexivity | discriminate].
Defined.

(** A team name with a ["/"]: the staging directory of its submission
    lies inside the staging directory of a submission of team [x], and
    the worker of that one removes its file. *)
Definition nested_uploads : World :=
  (demo_upload POST (mkSession (Some "x_u1/y") false) (Some zip_one) "u2"
     (demo_upload POST (mkSession (Some "x") false) (Some zip_one) "u1"
        (boot None (Dir []) ([] : Script))).2).2.

Example staging_directories_can_nest :
  staging_dir "x_u1/y" "u2" = staging_dir "x" "u1" ++ ["y_u2"] ∧
  fs_lookup (fs nested_uploads) (staging_dir "x_u1/y" "u2" ++ ["a.txt"])
  = Some (File [x61]) ∧
  fs_lookup (fs (demo_process_upload "u1" "x" (staging_dir "x" "u1") nested_uploads).2)
    (staging_dir "x_u1/y" "u2" ++ ["a.txt"])
  = None.
Proof. vm_compute. done. Qed.


(** *** The event stream *)

(** The server after the worker of the three-file submission has run. *)
Definition worked : World :=
  (demo_process_upload "u1" "teamX" staging (uploaded zip_three script_three)).2.

(** The first four chunks of the nine. *)
Lemma stream_in_order_witness :
  let c := mkChannel (produced_at 0 worked) 0 in
  channels worked !! 0 = Some c ∧
  let pend := upto_closed (drop (consumed c) (produced c)) in
  let out := stream 4 0 worked in
  out.1.1 = sse_chunk <$> take 4 pend ∧
  channels out.2 !! 0 = Some (mkChannel (produced c) (consumed c + length out.1.1)) ∧
  (out.1.2 = true ↔ ∃ ev, last (take 4 pend) = Some ev ∧ ev.1 = "closed").
Proof.
  cbn zeta. split; [vm_compute; reflexivity|].
  apply (stream_in_order 4 0 worked (mkChannel (produced_at 0 worked) 0)).
  vm_compute. reflexivity.
Defined.


(** *** The routes *)

(** The first upload on a fresh server. *)
Lemma upload_accepted_effect_witness :
  let w := fresh_server in
  let w' := after_first_upload in
  let r := (Redirect "success" (Some "u1"), no_session) in
  sess_team team_session = Some "teamX" ∧
  demo_upload POST team_session (Some zip_one) "u1" w = (inr r, w') ∧
  r = (Redirect "success" (Some "u1"), no_session) ∧
  upload_state w' = <["teamX" := true]> (upload_state w) ∧
  state_file w' = Some (upload_state w') ∧
  channels w' = channels w ++ [mkChannel [] 0] ∧
  upload_queues w' = <["u1" := length (channels w)]> (upload_queues w) ∧
  threads w' = threads w ++ [("u1", "teamX", staging_dir "teamX" "u1")] ∧
  upload_meta w' = upload_meta w ∧ wire w' = wire w ∧ remote w' = remote w.
Proof.
  cbn zeta. split; [reflexivity|]. split; [vm_compute; reflexivity|].
  apply (upload_accepted_effect demo_zip_members allow_all fresh_server team_session
           "teamX" (Some zip_one) "u1").
  - reflexivity.
  - vm_compute. reflexivity.
Defined.

(** An upload of bytes that are not an archive. *)
Lemma upload_failed_effect_witness :
  let w := fresh_server in
  let w' := (stage_archive demo_zip_members allow_all (staging_dir "teamX" "u1")
               (Some not_a_zip) w).2 in
  sess_team team_session = Some "teamX" ∧
  stage_archive demo_zip_members allow_all (staging_dir "teamX" "u1") (Some not_a_zip) w
  = (inl BadZipFile, w') ∧
  demo_upload POST team_session (Some not_a_zip) "u1" w = (inl BadZipFile, w') ∧
  upload_state w' = upload_state w ∧ state_file w' = state_file w ∧
  channels w' = channels w ∧ upload_queues w' = upload_queues w ∧
  threads w' = threads w ∧ upload_meta w' = upload_meta w ∧
  wire w' = wire w ∧ remote w' = remote w.
Proof.
  cbn zeta. split; [reflexivity|]. split; [vm_compute; reflexivity|].
  apply (upload_failed_effect demo_zip_members allow_all team_session "teamX"
           (Some not_a_zip) "u1" fresh_server BadZipFile).
  - reflexivity.
  - vm_compute. reflexivity.
Defined.

Definition admin_session : session := mkSession None true.

(** The admin resets [teamX] after its first upload; the team logs in
    and uploads once more. *)
Lemma reset_allows_one_submission_witness :
  let w1 := (reset_team "teamX" admin_session after_first_upload).2 in
  let granted := mkSession (Some "teamX") (sess_admin no_session) in
  let r := (Redirect "success" (Some "u2"), no_session) in
  let w2 := (demo_upload POST granted (Some zip_one) "u2" w1).2 in
  sess_admin admin_session = true ∧
  demo_teams !! "teamX" = Some "bcrypt:1234" ∧ "bcrypt:1234" ≠ "" ∧
  demo_checkpw "1234" "bcrypt:1234" = true ∧ "teamX" ≠ "VEGAVATH ADS" ∧
  demo_upload POST granted (Some zip_one) "u2" w1 = (inr r, w2) ∧
  demo_verify POST (Some "teamX") (Some "1234") no_session w1
  = (inr (Redirect "upload" None, granted), w1) ∧
  demo_verify POST (Some "teamX") (Some "1234") no_session w2
  = (inr (Rendered "verify.html"
            (Some "⚠️ Your team already submitted. Contact admin to unlock."),
          no_session), w2).
Proof.
  cbn zeta. split; [reflexivity|]. split; [vm_compute; reflexivity|].
  split; [discriminate|]. split; [vm_compute; reflexivity|]. split; [discriminate|].
  split; [vm_compute; reflexivity|].
  apply (reset_allows_one_submission demo_checkpw demo_zip_members allow_all demo_teams
           "teamX" "1234" "bcrypt:1234" admin_session no_session (Some zip_one) "u2"
           after_first_upload (Redirect "success" (Some "u2"), no_session)).
  - reflexivity.
  - vm_compute. reflexivity.
  - discriminate.
  - vm_compute. reflexivity.
  - discriminate.
  - vm_compute. reflexivity.
Defined.

(** *** The lock table *)

(** The lock table of the drained server. *)
Lemma lock_table_is_saved_witness :
  run_answered scripted_get scripted_put demo_dumps demo_checkpw demo_zip_members
    allow_all demo_token demo_teams drain_actions (boot None (Dir []) script_three)
  = Some drained ∧
  upload_state drained = default ∅ (state_file drained) ∧
  ∀ cwd' (r' : Script), upload_state (boot (state_file drained) cwd' r') = upload_state drained.
Proof.
  assert (run_answered scripted_get scripted_put demo_dumps demo_checkpw demo_zip_members
            allow_all demo_token demo_teams drain_actions (boot None (Dir []) script_three)
          = Some drained) as Hrun by (vm_compute; reflexivity).
  split; [exact Hrun|].
  exact (lock_table_is_saved scripted_get scripted_put demo_dumps demo_checkpw
           demo_zip_members allow_all demo_token demo_teams
           None (Dir []) script_three drain_actions drained Hrun).
Defined.

(** The first upload sets the lock of [teamX]. *)
Lemma lock_changes_by_upload_and_reset_witness :
  let w := boot None (Dir []) script_three in
  let w' := uploaded zip_three script_three in
  demo_perform first_upload w = Some w' ∧
  (has_submitted w "teamX" = true →
   has_submitted w' "teamX" = true ∨
   ∃ sess, first_upload = DoReset "teamX" sess ∧ sess_admin sess = true) ∧
  (has_submitted w "teamX" = false → has_submitted w' "teamX" = true →
   ∃ sess file uuid, first_upload = DoUpload POST sess file uuid ∧
                     sess_team sess = Some "teamX").
Proof.
  cbn zeta. split; [vm_compute; reflexivity|].
  apply (lock_changes_by_upload_and_reset scripted_get scripted_put demo_dumps demo_checkpw
           demo_zip_members allow_all demo_token demo_teams
           first_upload (boot None (Dir []) script_three) (uploaded zip_three script_three)
           "teamX").
  vm_compute. reflexivity.
Defined.
